(** * Resume parsing and competency scoring: a shallow embedding

    The development follows [src/lib/competencyScorer.ts] and
    [src/lib/resumeParser.ts].

    Conventions of the embedding.
    - A JavaScript string is a [string]: a sequence of code units below
      256, read as U+0000..U+00FF.  Code units above U+00FF (among them the
      bullet U+2022 and the en dash U+2013 that two character classes of the
      parser mention) are outside the modelled alphabet.
    - A JavaScript number is a rational [Q] (or an integer [Z] / [nat] where
      the code only ever produces integers).  Arithmetic is exact; the
      rounding of IEEE doubles, NaN and the infinities are not modelled.
      [Math.round x] is [Qfloor (x + 1/2)].
    - [Array.prototype.sort] is stable and is called with comparators that
      are total preorders on [Q]; its result is then the unique stable
      sorted permutation, computed here by a stable insertion sort.
    - Exceptions are values of a [result] type; module-level mutable state
      (the [lastIndex] fields of the global regular expressions) is passed
      explicitly. *)

From Stdlib Require Import List Bool Arith ZArith QArith Qround Lia Lqa.
From Stdlib Require Import Ascii String DecimalString.
From Stdlib Require Import Sorting.Sorted Sorting.Permutation.
Import ListNotations.

Close Scope Q_scope.
Open Scope string_scope.
Open Scope list_scope.
Open Scope nat_scope.

(** ** JavaScript strings *)

Module JsString.

Definition code (c : ascii) : nat := nat_of_ascii c.

(** [String.prototype.toLowerCase] on U+0000..U+00FF: A-Z and the
    Latin-1 capitals U+00C0..U+00DE (without the multiplication sign
    U+00D7) move up by 32. *)
Definition lower_char (c : ascii) : ascii :=
  let n := code c in
  if ((65 <=? n) && (n <=? 90)) || ((192 <=? n) && (n <=? 222) && negb (n =? 215))
  then ascii_of_nat (n + 32) else c.

Fixpoint toLowerCase (s : string) : string :=
  match s with
  | EmptyString => EmptyString
  | String c s' => String (lower_char c) (toLowerCase s')
  end.

(** White space and line terminators of ECMAScript below U+0100:
    TAB, LF, VT, FF, CR, SP and NBSP. *)
Definition is_space (c : ascii) : bool :=
  let n := code c in
  ((9 <=? n) && (n <=? 13)) || (n =? 32) || (n =? 160).

Fixpoint trimStart (s : string) : string :=
  match s with
  | EmptyString => EmptyString
  | String c s' => if is_space c then trimStart s' else s
  end.

(** [trimEnd] drops the trailing white space: a character is kept when it
    is not a space or when something is kept after it. *)
Fixpoint trimEnd (s : string) : string :=
  match s with
  | EmptyString => EmptyString
  | String c s' =>
      match trimEnd s' with
      | EmptyString => if is_space c then EmptyString else String c EmptyString
      | t => String c t
      end
  end.

Definition trim (s : string) : string := trimEnd (trimStart s).

Fixpoint startsWith (p s : string) : bool :=
  match p, s with
  | EmptyString, _ => true
  | String a p', String b s' => Ascii.eqb a b && startsWith p' s'
  | String _ _, EmptyString => false
  end.

(** [s.includes(t)] *)
Fixpoint includes (s t : string) : bool :=
  startsWith t s ||
  match s with
  | EmptyString => false
  | String _ s' => includes s' t
  end.

(** [s.charAt(i)]; [None] stands for the empty string returned out of
    range. *)
Definition charAt (s : string) (i : nat) : option ascii := String.get i s.

Definition opt_ascii_eqb (a b : option ascii) : bool :=
  match a, b with
  | Some x, Some y => Ascii.eqb x y
  | None, None => true
  | _, _ => false
  end.

(** [s.split('\n')] *)
Fixpoint split_lines_aux (cur : string) (s : string) : list string :=
  match s with
  | EmptyString => [cur]
  | String c s' =>
      if Ascii.eqb c "010"%char then cur :: split_lines_aux EmptyString s'
      else split_lines_aux (String.append cur (String c EmptyString)) s'
  end.

Definition split_lines (s : string) : list string := split_lines_aux EmptyString s.

Fixpoint join (sep : string) (l : list string) : string :=
  match l with
  | [] => EmptyString
  | [x] => x
  | x :: l' => String.append x (String.append sep (join sep l'))
  end.

End JsString.

Import JsString.

(** ** The similarity matcher ([competencyScorer.ts], lines 210-248) *)

Module Similarity.

(** [costs[j] = v] on a JavaScript array: an index inside the array
    overwrites, the index [costs.length] appends.  An index beyond the
    length would leave holes; the loops below never write there, and the
    model pads with 0 in that case. *)
Definition array_set (j v : nat) (a : list nat) : list nat :=
  if j <? List.length a then firstn j a ++ v :: skipn (S j) a
  else a ++ repeat 0 (j - List.length a) ++ [v].

(** [costs[j]] as a number; reads are always inside the array. *)
Definition array_get (a : list nat) (j : nat) : nat := nth j a 0.

(** One turn of the inner loop [for (let j = 0; j <= s2.length; j++)]
    of [getEditDistance]; the state is [(lastValue, costs)]. *)
Definition inner_step (s1 s2 : string) (i : nat)
    (st : nat * list nat) (j : nat) : nat * list nat :=
  let '(lastValue, costs) := st in
  if i =? 0 then (lastValue, array_set j j costs)
  else if 0 <? j then
    let newValue := array_get costs (j - 1) in
    let newValue :=
      if opt_ascii_eqb (charAt s1 (i - 1)) (charAt s2 (j - 1)) then newValue
      else Nat.min (Nat.min newValue lastValue) (array_get costs j) + 1 in
    (newValue, array_set (j - 1) lastValue costs)
  else (lastValue, costs).

(** One turn of the outer loop [for (let i = 0; i <= s1.length; i++)]. *)
Definition outer_step (s1 s2 : string) (costs : list nat) (i : nat) : list nat :=
  let '(lastValue, costs') :=
    fold_left (inner_step s1 s2 i) (seq 0 (S (String.length s2))) (i, costs) in
  if 0 <? i then array_set (String.length s2) lastValue costs' else costs'.

Definition getEditDistance (s1 s2 : string) : nat :=
  array_get (fold_left (outer_step s1 s2) (seq 0 (S (String.length s1))) [])
            (String.length s2).

Definition calculateSimilarity (str1 str2 : string) : Q :=
  let s1 := trim (toLowerCase str1) in
  let s2 := trim (toLowerCase str2) in
  if String.eqb s1 s2 then 1%Q
  else if includes s1 s2 || includes s2 s1 then (85 # 100)%Q
  else
    let longer := if String.length s2 <? String.length s1 then s1 else s2 in
    let shorter := if String.length s2 <? String.length s1 then s2 else s1 in
    if String.length longer =? 0 then 1%Q
    else
      let editDistance := getEditDistance shorter longer in
      (1 - inject_Z (Z.of_nat editDistance)
           / inject_Z (Z.of_nat (String.length longer)))%Q.

(** The Wagner-Fischer table of the Levenshtein distance, in the form the
    loop computes it: [lev s1 s2 i j] is the distance between the first
    [i] characters of [s1] and the first [j] characters of [s2]. *)
Fixpoint lev (s1 s2 : string) (i j : nat) {struct i} : nat :=
  match i with
  | 0 => j
  | S i' =>
      (fix row (j : nat) : nat :=
         match j with
         | 0 => S i'
         | S j' =>
             if opt_ascii_eqb (charAt s1 i') (charAt s2 j')
             then lev s1 s2 i' j'
             else Nat.min (Nat.min (lev s1 s2 i' j') (row j')) (lev s1 s2 i' (S j')) + 1
         end) j
  end.

Definition levenshtein (s1 s2 : string) : nat :=
  lev s1 s2 (String.length s1) (String.length s2).

Arguments lev : simpl never.

End Similarity.

Import Similarity.

(** ** JavaScript numbers and arrays *)

Module JsNumber.

Definition Qlt_bool (x y : Q) : bool := negb (Qle_bool y x).

(** [Math.round]: the nearest integer, halves towards plus infinity. *)
Definition Math_round (x : Q) : Z := Qfloor (x + (1 # 2)).

Definition Qmax (x y : Q) : Q := if Qle_bool x y then y else x.
Definition Qmin (x y : Q) : Q := if Qle_bool x y then x else y.

Definition Qsum (l : list Q) : Q := fold_left Qplus l 0%Q.

(** [a.sort(cmp)]: a negative [cmp x y] puts [x] first, a positive one
    puts [y] first, and elements that compare equal keep their order.
    [insert_by] puts [x], which stood before every element of [l], in
    front of the first element it need not follow. *)
Fixpoint insert_by {A : Type} (cmp : A -> A -> Q) (x : A) (l : list A) : list A :=
  match l with
  | [] => [x]
  | y :: l' => if Qle_bool (cmp x y) 0 then x :: l else y :: insert_by cmp x l'
  end.

Definition sort_by {A : Type} (cmp : A -> A -> Q) (l : list A) : list A :=
  fold_right (insert_by cmp) [] l.

End JsNumber.

Import JsNumber.

(** ** The competency scorer ([competencyScorer.ts]) *)

Inductive Proficiency : Type := Beginner | Intermediate | Advanced | Expert.

Definition Proficiency_name (p : Proficiency) : string :=
  match p with
  | Beginner => "Beginner"
  | Intermediate => "Intermediate"
  | Advanced => "Advanced"
  | Expert => "Expert"
  end.

Record ExtractedSkill : Type := mkSkill {
  skill : string;
  confidence : Q;
  category : string
}.

Record CompetencyMatch : Type := mkMatch {
  competency : string;
  extractedSkill : string;
  confidenceScore : Q;
  proficiencyLevel : Proficiency;
  gap : bool
}.

Record ScoringResult : Type := mkScoring {
  overallFitScore : Z;
  rankingScore : Z;
  competencyMatches : list CompetencyMatch;
  skillGaps : list string;
  strengths : list string;
  recommendations : string;
  culturalFitIndex : Z
}.

Module Scorer.

Definition PROFICIENCY_expert : list string :=
  ["expert"; "senior"; "lead"; "architect"; "10+"; "years"].
Definition PROFICIENCY_advanced : list string :=
  ["advanced"; "proficient"; "5-10"; "years"].
Definition PROFICIENCY_intermediate : list string :=
  ["intermediate"; "competent"; "2-5"; "years"].

Definition inferProficiencyLevel (skill : string) : Proficiency :=
  let lower := toLowerCase skill in
  if existsb (includes lower) PROFICIENCY_expert then Expert
  else if existsb (includes lower) PROFICIENCY_advanced then Advanced
  else if existsb (includes lower) PROFICIENCY_intermediate then Intermediate
  else Beginner.

(** The body of [extractedSkills.forEach] inside [matchCompetencies];
    the state is [(bestMatch, bestSimilarity)]. *)
Definition match_step (required : string)
    (st : option CompetencyMatch * Q) (extracted : ExtractedSkill)
    : option CompetencyMatch * Q :=
  let '(bestMatch, bestSimilarity) := st in
  let similarity := calculateSimilarity required (skill extracted) in
  if Qlt_bool bestSimilarity similarity && Qlt_bool (5 # 10) similarity then
    (Some {| competency := required;
             extractedSkill := skill extracted;
             confidenceScore := (similarity * confidence extracted)%Q;
             proficiencyLevel := inferProficiencyLevel (skill extracted);
             gap := false |},
     similarity)
  else st.

Definition gap_entry (required : string) : CompetencyMatch :=
  {| competency := required;
     extractedSkill := "";
     confidenceScore := 0%Q;
     proficiencyLevel := Beginner;
     gap := true |}.

(** The body of [requiredCompetencies.forEach]: the entry pushed for one
    required competency. *)
Definition match_one (extractedSkills : list ExtractedSkill) (required : string)
    : CompetencyMatch :=
  match fst (fold_left (match_step required) extractedSkills (None, 0%Q)) with
  | Some bestMatch => bestMatch
  | None => gap_entry required
  end.

Definition by_confidence_desc (a b : CompetencyMatch) : Q :=
  (confidenceScore b - confidenceScore a)%Q.

Definition matchCompetencies (extractedSkills : list ExtractedSkill)
    (requiredCompetencies : list string) : list CompetencyMatch :=
  sort_by by_confidence_desc (map (match_one extractedSkills) requiredCompetencies).

Definition identifySkillGaps (competencyMatches : list CompetencyMatch)
    (requiredCompetencies : list string) : list string :=
  map competency (filter gap competencyMatches).

Definition identifyStrengths (competencyMatches : list CompetencyMatch) : list string :=
  map (fun m => String.append (extractedSkill m)
                  (String.append " (" (String.append (Proficiency_name (proficiencyLevel m)) ")")))
      (firstn 5 (filter (fun m => negb (gap m) && Qlt_bool (7 # 10) (confidenceScore m))
                        competencyMatches)).

Definition assessCulturalFit (resumeText : string) (extractedSkills : list ExtractedSkill) : Z :=
  let text := toLowerCase resumeText in
  let fitScore := 50%Z in
  let fitScore :=
    if includes text "agile" || includes text "scrum" || includes text "sprint"
    then (fitScore + 10)%Z else fitScore in
  let fitScore :=
    if includes text "collaborate" || includes text "teamwork" || includes text "cross-functional"
    then (fitScore + 10)%Z else fitScore in
  let fitScore :=
    if includes text "innovation" || includes text "creative"
    then (fitScore + 5)%Z else fitScore in
  let fitScore :=
    if includes text "leadership" || includes text "mentor"
    then (fitScore + 8)%Z else fitScore in
  let softSkills := filter (fun s => String.eqb (category s) "soft") extractedSkills in
  let fitScore := (fitScore + Z.min (Z.of_nat (List.length softSkills) * 2) 15)%Z in
  Z.min 100 fitScore.

Definition calculateOverallFitScore (competencyMatches : list CompetencyMatch)
    (totalRequired : nat) : Z :=
  if totalRequired =? 0 then 50%Z
  else
    let total := inject_Z (Z.of_nat totalRequired) in
    let matchedCount :=
      List.length (filter (fun m => negb (gap m)) competencyMatches) in
    let confidenceAvg :=
      (fold_left (fun sum m => sum + confidenceScore m) competencyMatches 0 / total)%Q in
    let matchPercentage := (inject_Z (Z.of_nat matchedCount) / total * 100)%Q in
    let confidenceScore := (confidenceAvg * 100)%Q in
    Math_round (matchPercentage * (6 # 10) + confidenceScore * (4 # 10))%Q.

Definition calculateRankingScore (overallFit culturalFit : Z) (gapCount : nat) : Z :=
  let fitComponent := (inject_Z overallFit * (5 # 10))%Q in
  let culturalComponent := (inject_Z culturalFit * (3 # 10))%Q in
  let gapComponent :=
    (Qmax 0 ((1 - inject_Z (Z.of_nat gapCount) * (15 # 100)) * 100) * (2 # 10))%Q in
  Math_round (fitComponent + culturalComponent + gapComponent)%Q.

Definition generateRecommendations (overallFitScore : Z) (skillGaps : list string)
    (culturalFit : Z) : string :=
  if ((80 <? overallFitScore) && (75 <? culturalFit))%Z
  then "Highly Recommended - Schedule Interview"
  else if (65 <? overallFitScore)%Z && (List.length skillGaps <=? 2)
  then "Recommended - Consider for Technical Round"
  else if (50 <? overallFitScore)%Z
  then "Potential Fit - Request Additional Info"
  else if 5 <? List.length skillGaps
  then "Requires Training - Consider for Entry Level"
  else "Not Recommended - Skill Gap Too Large".

Definition scoreCompetencies (extractedSkills : list ExtractedSkill)
    (requiredCompetencies : list string) (resumeText : string) : ScoringResult :=
  let competencyMatches := matchCompetencies extractedSkills requiredCompetencies in
  let skillGaps := identifySkillGaps competencyMatches requiredCompetencies in
  let strengths := identifyStrengths competencyMatches in
  let culturalFitIndex := assessCulturalFit resumeText extractedSkills in
  let overallFitScore :=
    calculateOverallFitScore competencyMatches (List.length requiredCompetencies) in
  let rankingScore :=
    calculateRankingScore overallFitScore culturalFitIndex (List.length skillGaps) in
  let recommendations :=
    generateRecommendations overallFitScore skillGaps culturalFitIndex in
  {| overallFitScore := overallFitScore;
     rankingScore := rankingScore;
     competencyMatches := competencyMatches;
     skillGaps := skillGaps;
     strengths := strengths;
     recommendations := recommendations;
     culturalFitIndex := culturalFitIndex |}.

End Scorer.

Import Scorer.

(** ** Regular expressions

    A backtracking matcher for the fragment of ECMAScript patterns that
    [resumeParser.ts] uses: literal characters, character classes, the
    dot, greedy quantifiers on one-character atoms, sequence, ordered
    alternation, capture groups, [^] and [\b]. *)

Module Regex.

Inductive citem : Type :=
| CChar (c : ascii)
| CRange (lo hi : ascii)
| CSpace                       (* \s *)
| CDigit                       (* \d *)
| CWord.                       (* \w *)

Inductive atom : Type :=
| ALit (c : ascii)
| AClass (items : list citem)
| ADot.

Inductive regex : Type :=
| REmpty
| RAtom (a : atom)
| RRep (a : atom) (min : nat) (max : option nat)
| RSeq (r1 r2 : regex)
| RAlt (r1 r2 : regex)
| RGroup (n : nat) (r : regex)
| RBol
| RWordB.

Definition is_digit (c : ascii) : bool :=
  let n := code c in (48 <=? n) && (n <=? 57).

Definition is_word (c : ascii) : bool :=
  let n := code c in
  ((48 <=? n) && (n <=? 57)) || ((65 <=? n) && (n <=? 90))
  || ((97 <=? n) && (n <=? 122)) || (n =? 95).

Definition is_line_terminator (c : ascii) : bool :=
  let n := code c in (n =? 10) || (n =? 13).

(** Canonicalize of the [i] flag on U+0000..U+00FF: the simple upper-case
    mapping, where it stays inside the alphabet. *)
Definition upper_char (c : ascii) : ascii :=
  let n := code c in
  if ((97 <=? n) && (n <=? 122)) || ((224 <=? n) && (n <=? 254) && negb (n =? 247))
  then ascii_of_nat (n - 32) else c.

Definition citem_match (it : citem) (c : ascii) : bool :=
  match it with
  | CChar x => Ascii.eqb x c
  | CRange lo hi => (code lo <=? code c) && (code c <=? code hi)
  | CSpace => is_space c
  | CDigit => is_digit c
  | CWord => is_word c
  end.

Definition class_match (items : list citem) (c : ascii) : bool :=
  existsb (fun it => citem_match it c) items.

(** Under the [i] flag a character matches when some member of the set
    has the same canonical form, that is when the set holds its upper-
    or its lower-case form. *)
Definition atom_match (ignoreCase : bool) (a : atom) (c : ascii) : bool :=
  match a with
  | ALit x =>
      if ignoreCase then Ascii.eqb (upper_char x) (upper_char c) else Ascii.eqb x c
  | AClass items =>
      if ignoreCase
      then class_match items (upper_char c) || class_match items (lower_char c)
      else class_match items c
  | ADot => negb (is_line_terminator c)
  end.

(** A position of the matcher inside the subject string. *)
Record mstate : Type := mkState {
  m_pos : nat;                          (* index of the next character *)
  m_prev : option ascii;                (* the character before it *)
  m_rest : string;                      (* the characters from [m_pos] on *)
  m_caps : list (nat * (nat * nat))     (* group, start, end; latest first *)
}.

Definition can_repeat (max : option nat) : bool :=
  match max with Some 0 => false | _ => true end.

(** Greedy repetition of a one-character atom: take another character
    when allowed, and fall back to the continuation when that fails. *)
Fixpoint rep_match (ic : bool) (a : atom) (min : nat) (max : option nat)
    (pos : nat) (prev : option ascii) (caps : list (nat * (nat * nat)))
    (rest : string) (k : mstate -> option mstate) {struct rest} : option mstate :=
  let stop := if min =? 0 then k (mkState pos prev rest caps) else None in
  match rest with
  | EmptyString => stop
  | String c rest' =>
      if can_repeat max && atom_match ic a c then
        match rep_match ic a (Nat.pred min) (option_map Nat.pred max)
                        (S pos) (Some c) caps rest' k with
        | Some r => Some r
        | None => stop
        end
      else stop
  end.

Definition at_word_boundary (st : mstate) : bool :=
  let a := match m_prev st with Some c => is_word c | None => false end in
  let b := match m_rest st with String c _ => is_word c | EmptyString => false end in
  xorb a b.

Fixpoint rmatch (ic : bool) (r : regex) (st : mstate)
    (k : mstate -> option mstate) {struct r} : option mstate :=
  match r with
  | REmpty => k st
  | RAtom a =>
      match m_rest st with
      | String c rest' =>
          if atom_match ic a c
          then k (mkState (S (m_pos st)) (Some c) rest' (m_caps st))
          else None
      | EmptyString => None
      end
  | RRep a min max =>
      rep_match ic a min max (m_pos st) (m_prev st) (m_caps st) (m_rest st) k
  | RSeq r1 r2 => rmatch ic r1 st (fun st' => rmatch ic r2 st' k)
  | RAlt r1 r2 =>
      match rmatch ic r1 st k with
      | Some res => Some res
      | None => rmatch ic r2 st k
      end
  | RGroup n r1 =>
      rmatch ic r1 st
        (fun st' => k (mkState (m_pos st') (m_prev st') (m_rest st')
                               ((n, (m_pos st, m_pos st')) :: m_caps st')))
  | RBol => if m_pos st =? 0 then k st else None
  | RWordB => if at_word_boundary st then k st else None
  end.

(** A successful match: where it starts, where it ends, the groups. *)
Record rmatch_result : Type := mkResult {
  r_index : nat;
  r_end : nat;
  r_caps : list (nat * (nat * nat))
}.

(** Try the pattern at the current position, then at each later one. *)
Fixpoint search (ic : bool) (r : regex) (pos : nat) (prev : option ascii)
    (rest : string) {struct rest} : option rmatch_result :=
  match rmatch ic r (mkState pos prev rest []) Some with
  | Some st => Some (mkResult pos (m_pos st) (m_caps st))
  | None =>
      match rest with
      | EmptyString => None
      | String c rest' => search ic r (S pos) (Some c) rest'
      end
  end.

(** Move to index [i] of the subject; [None] beyond its end. *)
Fixpoint seek (i : nat) (pos : nat) (prev : option ascii) (rest : string)
    : option (nat * option ascii * string) :=
  match i with
  | 0 => Some (pos, prev, rest)
  | S i' =>
      match rest with
      | EmptyString => None
      | String c rest' => seek i' (S pos) (Some c) rest'
      end
  end.

Definition search_from (ic : bool) (r : regex) (lastIndex : nat) (s : string)
    : option rmatch_result :=
  match seek lastIndex 0 None s with
  | None => None
  | Some (pos, prev, rest) => search ic r pos prev rest
  end.

(** A RegExp object. *)
Record RegExp : Type := mkRegExp {
  re_pattern : regex;
  re_ignoreCase : bool;
  re_global : bool;
  lastIndex : nat
}.

Definition set_lastIndex (re : RegExp) (i : nat) : RegExp :=
  mkRegExp (re_pattern re) (re_ignoreCase re) (re_global re) i.

(** [re.exec(s)]: a global expression starts at [lastIndex], leaves the
    end of the match there, and resets it to 0 on failure; one without
    the [g] flag starts at 0 and leaves [lastIndex] alone. *)
Definition RegExp_exec (re : RegExp) (s : string) : option rmatch_result * RegExp :=
  if re_global re then
    match search_from (re_ignoreCase re) (re_pattern re) (lastIndex re) s with
    | Some res => (Some res, set_lastIndex re (r_end res))
    | None => (None, set_lastIndex re 0)
    end
  else (search_from (re_ignoreCase re) (re_pattern re) 0 s, re).

(** [re.test(s)] *)
Definition RegExp_test (re : RegExp) (s : string) : bool * RegExp :=
  let '(res, re') := RegExp_exec re s in
  (match res with Some _ => true | None => false end, re').

Definition group_text (s : string) (res : rmatch_result) (n : nat) : option string :=
  match find (fun e => fst e =? n) (r_caps res) with
  | Some (_, (i, j)) => Some (substring i (j - i) s)
  | None => None
  end.

Definition matched_text (s : string) (res : rmatch_result) : string :=
  substring (r_index res) (r_end res - r_index res) s.

(** [s.match(re)] for an expression without the [g] flag. *)
Definition String_match (ic : bool) (r : regex) (s : string) : option rmatch_result :=
  search_from ic r 0 s.

(** [s.match(re)] for a global expression: all the matches, each search
    starting where the last match ended (one further after an empty
    match).  The index moves forward each turn, so [fuel] = length + 1
    turns are enough. *)
Fixpoint match_all (fuel : nat) (ic : bool) (r : regex) (from : nat) (s : string)
    : list string :=
  match fuel with
  | 0 => []
  | S fuel' =>
      match search_from ic r from s with
      | None => []
      | Some res =>
          matched_text s res
          :: match_all fuel' ic r
               (if r_end res =? r_index res then S (r_end res) else r_end res) s
      end
  end.

Definition String_match_all (ic : bool) (r : regex) (s : string) : list string :=
  match_all (S (String.length s)) ic r 0 s.

(** [s.replace(re, '')] for an expression without the [g] flag. *)
Definition String_remove_first (ic : bool) (r : regex) (s : string) : string :=
  match search_from ic r 0 s with
  | None => s
  | Some res =>
      String.append (substring 0 (r_index res) s)
                    (substring (r_end res) (String.length s - r_end res) s)
  end.

(** Pattern builders. *)
Fixpoint lit (s : string) : regex :=
  match s with
  | EmptyString => REmpty
  | String c EmptyString => RAtom (ALit c)
  | String c s' => RSeq (RAtom (ALit c)) (lit s')
  end.

Fixpoint alts (l : list regex) : regex :=
  match l with
  | [] => REmpty
  | [r] => r
  | r :: l' => RAlt r (alts l')
  end.

Fixpoint seqs (l : list regex) : regex :=
  match l with
  | [] => REmpty
  | [r] => r
  | r :: l' => RSeq r (seqs l')
  end.

Definition plus (a : atom) : regex := RRep a 1 None.
Definition star (a : atom) : regex := RRep a 0 None.
Definition between (a : atom) (lo hi : nat) : regex := RRep a lo (Some hi).
Definition space : atom := AClass [CSpace].
Definition digit : atom := AClass [CDigit].

End Regex.

Import Regex.

(** ** Exceptions and the RegExp constructor *)

Inductive error : Type :=
| SyntaxError (message : string)
| Unsupported (source : string).

Inductive result (A : Type) : Type :=
| Ok (a : A)
| Err (e : error).

Arguments Ok {A} a.
Arguments Err {A} e.

Module RegExpSource.

(** Characters with a meaning of their own in a pattern. *)
Definition is_syntax_char (c : ascii) : bool :=
  existsb (Ascii.eqb c)
          (list_ascii_of_string "^$\.*+?()[]{}|").

Definition flush (pending : option atom) (done : list regex) : list regex :=
  match pending with
  | Some a => RAtom a :: done
  | None => done
  end.

(** The parser of pattern sources, for the sources [extractSkills]
    builds: [\b], the dot, ordinary characters and the quantifier [+].
    A quantifier needs an atom before it: after an assertion, after
    another quantifier or at the start it is the SyntaxError "Nothing to
    repeat" (ECMAScript: Term :: Atom Quantifier, and [+] is no pattern
    character).  [pending] is the last atom read, which a quantifier may
    still follow; [done] holds the finished terms, latest first.  Any
    other syntax character is outside this parser ([Unsupported]). *)
Fixpoint parse (src : string) (pending : option atom) (done : list regex)
    : result regex :=
  match src with
  | EmptyString => Ok (seqs (rev (flush pending done)))
  | String "\" (String "b" rest) => parse rest None (RWordB :: flush pending done)
  | String "." rest => parse rest (Some ADot) (flush pending done)
  | String "+" rest =>
      match pending with
      | Some a => parse rest None (RRep a 1 None :: done)
      | None => Err (SyntaxError "Nothing to repeat")
      end
  | String c rest =>
      if is_syntax_char c then Err (Unsupported src)
      else parse rest (Some (ALit c)) (flush pending done)
  end.

(** [new RegExp(source, 'gi')] *)
Definition RegExp_new_gi (source : string) : result RegExp :=
  match parse source None [] with
  | Ok r => Ok (mkRegExp r true true 0)
  | Err e => Err e
  end.

End RegExpSource.

Import RegExpSource.

(** ** The resume parser ([resumeParser.ts]) *)

Inductive EducationLevel : Type :=
| HighSchool | Bachelor | Master | PhD | Certification.

Record ExtractedEducation : Type := mkEducation {
  degree : string;
  field : string;
  institution : string;
  year : option Z;
  level : EducationLevel
}.

Record ExtractedExperience : Type := mkExperience {
  jobTitle : string;
  company : string;
  duration : string;
  yearsInRole : Z;
  responsibilities : list string;
  exp_skills : list string            (* the field [skills] *)
}.

Record ParsedResume : Type := mkParsed {
  skills : list ExtractedSkill;
  education : list ExtractedEducation;
  experience : list ExtractedExperience;
  totalYearsExperience : Q;
  summary : string;
  embeddings : list Q;
  extractionScore : Q
}.

Module Parser.

Definition TECHNICAL_KEYWORDS : list string :=
  ["React"; "Node.js"; "Python"; "JavaScript"; "TypeScript"; "Java"; "C++"; "SQL"; "MongoDB";
   "AWS"; "Azure"; "Docker"; "Kubernetes"; "Git"; "REST API"; "GraphQL"; "Machine Learning";
   "Data Science"; "TensorFlow"; "PyTorch"; "BERT"; "NLP"; "Deep Learning"; "Vue.js"; "Angular";
   "Express"; "Django"; "Flask"; "Spring Boot"; "PostgreSQL"; "Firebase"; "Supabase";
   "CI/CD"; "DevOps"; "Linux"; "Agile"; "Scrum"; "JIRA"; "Figma"; "UI/UX"].

Definition SOFT_KEYWORDS : list string :=
  ["Leadership"; "Communication"; "Problem Solving"; "Teamwork"; "Adaptability";
   "Critical Thinking"; "Time Management"; "Creativity"; "Analytical"; "Strategic";
   "Negotiation"; "Mentoring"; "Project Management"; "Decision Making"; "Collaboration";
   "Attention to Detail"; "Reliability"; "Work Ethic"; "Flexibility"; "Innovation"].

Definition global_ci (r : regex) : RegExp := mkRegExp r true true 0.

(** The module-level table; its RegExp objects live as long as the
    module and keep their [lastIndex] from one call to the next. *)
Definition EDUCATION_PATTERNS : list (RegExp * EducationLevel) :=
  [ (global_ci (alts [lit "bachelor"; lit "b.s"; lit "b.a"; lit "undergraduate"]), Bachelor);
    (global_ci (alts [lit "master"; lit "m.s"; lit "m.a"; lit "graduate"]), Master);
    (global_ci (alts [lit "phd"; lit "doctorate"]), PhD);
    (global_ci (alts [lit "certification"; lit "certified"; lit "cert"]), Certification);
    (global_ci (alts [lit "high school"; lit "secondary"]), HighSchool) ].

(** [Map]: insertion-ordered; [set] on a key already present replaces
    the value and keeps the key's place. *)
Fixpoint Map_set {V : Type} (k : string) (v : V) (m : list (string * V))
    : list (string * V) :=
  match m with
  | [] => [(k, v)]
  | (k', v') :: m' =>
      if String.eqb k k' then (k, v) :: m' else (k', v') :: Map_set k v m'
  end.

Definition Map_new {V : Type} (entries : list (string * V)) : list (string * V) :=
  fold_left (fun m kv => Map_set (fst kv) (snd kv) m) entries [].

Definition Map_values {V : Type} (m : list (string * V)) : list V := map snd m.

(** The turn of [forEach] for one keyword. *)
Definition keyword_step (processedText : string) (conf : Q) (cat : string)
    (skills : list ExtractedSkill) (kw : string) : result (list ExtractedSkill) :=
  match RegExp_new_gi (String.append "\b" (String.append (toLowerCase kw) "\b")) with
  | Err e => Err e
  | Ok regex =>
      if fst (RegExp_test regex processedText)
      then Ok (skills ++ [mkSkill kw conf cat])
      else Ok skills
  end.

Fixpoint scan_keywords (processedText : string) (conf : Q) (cat : string)
    (kws : list string) (skills : list ExtractedSkill) : result (list ExtractedSkill) :=
  match kws with
  | [] => Ok skills
  | kw :: kws' =>
      match keyword_step processedText conf cat skills kw with
      | Err e => Err e
      | Ok skills' => scan_keywords processedText conf cat kws' skills'
      end
  end.

Definition uniqueSkills (skills : list ExtractedSkill) : list ExtractedSkill :=
  Map_values (Map_new (map (fun s => (toLowerCase (skill s), s)) skills)).

Definition rank_skills (skills : list ExtractedSkill) : list ExtractedSkill :=
  firstn 30 (sort_by (fun a b => (confidence b - confidence a)%Q) (uniqueSkills skills)).

(** [extractSkills] over given vocabularies. *)
Definition extractSkillsWith (technical soft : list string) (resumeText : string)
    : result (list ExtractedSkill) :=
  let processedText := toLowerCase resumeText in
  match scan_keywords processedText (9 # 10) "technical" technical [] with
  | Err e => Err e
  | Ok skills =>
      match scan_keywords processedText (75 # 100) "soft" soft skills with
      | Err e => Err e
      | Ok skills => Ok (rank_skills skills)
      end
  end.

Definition extractSkills (resumeText : string) : result (list ExtractedSkill) :=
  extractSkillsWith TECHNICAL_KEYWORDS SOFT_KEYWORDS resumeText.

(** Group [n] of a match; every group the parser reads takes part in
    every match of its pattern. *)
Definition group (s : string) (res : rmatch_result) (n : nat) : string :=
  match group_text s res n with
  | Some t => t
  | None => ""
  end.

(** [parseInt] on the strings the parser gives it, which start with
    decimal digits: the value of the leading digits. *)
Fixpoint parse_digits (s : string) (acc : Z) : Z :=
  match s with
  | EmptyString => acc
  | String c s' =>
      if is_digit c then parse_digits s' (acc * 10 + Z.of_nat (code c - 48))%Z
      else acc
  end.

Definition parseInt (s : string) : Z := parse_digits s 0%Z.

Definition letters : citem := CRange "a" "z".

(** /(?:from|at|,)\s+([a-z\s&\.]{2,50})/i *)
Definition institution_re : regex :=
  seqs [alts [lit "from"; lit "at"; lit ","]; plus space;
        RGroup 1 (between (AClass [letters; CSpace; CChar "&"; CChar "."]) 2 50)].

Definition extractInstitution (line : string) : string :=
  match String_match true institution_re line with
  | Some institutionMatch => trim (group line institutionMatch 1)
  | None => "Unknown"
  end.

(** /([a-z\s&]{2,50})\s+in\s+([a-z\s]{2,50})/i *)
Definition degree_re : regex :=
  seqs [RGroup 1 (between (AClass [letters; CSpace; CChar "&"]) 2 50);
        plus space; lit "in"; plus space;
        RGroup 2 (between (AClass [letters; CSpace]) 2 50)].

(** /\b(19|20)\d{2}\b/ *)
Definition year_re : regex :=
  seqs [RWordB; RGroup 1 (alts [lit "19"; lit "20"]); between digit 2 2; RWordB].

(** [for (const pattern of EDUCATION_PATTERNS) if (pattern.regex.test(line)) {...; break}]:
    the level of the first pattern whose [test] succeeds, and the table
    with the [lastIndex] fields that the calls of [test] leave. *)
Fixpoint first_pattern (line : string) (patterns : list (RegExp * EducationLevel))
    : option EducationLevel * list (RegExp * EducationLevel) :=
  match patterns with
  | [] => (None, [])
  | (regex, lvl) :: rest =>
      let '(hit, regex') := RegExp_test regex line in
      if hit then (Some lvl, (regex', lvl) :: rest)
      else
        let '(found, rest') := first_pattern line rest in
        (found, (regex', lvl) :: rest')
  end.

Definition education_step
    (st : list ExtractedEducation * list (RegExp * EducationLevel)) (line : string)
    : list ExtractedEducation * list (RegExp * EducationLevel) :=
  let '(education, patterns) := st in
  match first_pattern line patterns with
  | (Some lvl, patterns') =>
      let degreeMatch := String_match true degree_re line in
      let yearMatch := String_match false year_re line in
      match degreeMatch with
      | Some dm =>
          (education ++
             [ {| degree := trim (group line dm 1);
                  field := trim (group line dm 2);
                  institution := extractInstitution line;
                  year := match yearMatch with
                          | Some ym => Some (parseInt (matched_text line ym))
                          | None => None
                          end;
                  level := lvl |} ],
           patterns')
      | None => (education, patterns')
      end
  | (None, patterns') => (education, patterns')
  end.

(** [extractEducation], with the pattern table it finds and the one it
    leaves behind. *)
Definition extractEducation (patterns : list (RegExp * EducationLevel))
    (resumeText : string)
    : list ExtractedEducation * list (RegExp * EducationLevel) :=
  fold_left education_step (split_lines resumeText) ([], patterns).

(** /(?:^|\s)(software engineer|developer|...|qa engineer)/i *)
Definition jobTitle_re : regex :=
  seqs [alts [RBol; RAtom space];
        RGroup 1 (alts (map lit
          ["software engineer"; "developer"; "manager"; "analyst"; "architect"; "lead";
           "director"; "designer"; "product"; "business"; "data scientist";
           "ml engineer"; "qa engineer"]))].

(** /(?:at|@|,)\s+([a-z0-9&\s\.]{2,50})/i *)
Definition company_re : regex :=
  seqs [alts [lit "at"; lit "@"; lit ","]; plus space;
        RGroup 1 (between (AClass [letters; CRange "0" "9"; CChar "&"; CSpace; CChar "."]) 2 50)].

(** /(\d{4})\s*[-–]\s*(\d{4}|present|current)/i; the en dash is
    outside the alphabet. *)
Definition duration_re : regex :=
  seqs [RGroup 1 (between digit 4 4); star space; RAtom (AClass [CChar "-"]); star space;
        RGroup 2 (alts [between digit 4 4; lit "present"; lit "current"])].

(** /^[\s]*[-•*]/ and /^[\s]*[-•*]\s*/; the bullet is outside
    the alphabet. *)
Definition bullet_re : regex :=
  seqs [RBol; star (AClass [CSpace]); RAtom (AClass [CChar "-"; CChar "*"])].

Definition bullet_strip_re : regex :=
  seqs [RBol; star (AClass [CSpace]); RAtom (AClass [CChar "-"; CChar "*"]); star space].

(** [calculateYearsInRole]; [currentYear] is [new Date().getFullYear()]. *)
Definition calculateYearsInRole (currentYear : Z) (line : string)
    (durationMatch : option rmatch_result) : Z :=
  match durationMatch with
  | None => 1%Z
  | Some dm =>
      let startYear := parseInt (group line dm 1) in
      let endYear :=
        if String.eqb (toLowerCase (group line dm 2)) "present"
           || String.eqb (toLowerCase (group line dm 2)) "current"
        then currentYear
        else parseInt (group line dm 2) in
      Z.max 1 (endYear - startYear)
  end.

Definition push_responsibility (role : ExtractedExperience) (r : string)
    : ExtractedExperience :=
  {| jobTitle := jobTitle role;
     company := company role;
     duration := duration role;
     yearsInRole := yearsInRole role;
     responsibilities := responsibilities role ++ [r];
     exp_skills := exp_skills role |}.

(** The turn of [lines.forEach] in [extractExperience]; the state is
    [(experience, currentRole)]. *)
Definition experience_step (currentYear : Z)
    (st : list ExtractedExperience * option ExtractedExperience) (line : string)
    : list ExtractedExperience * option ExtractedExperience :=
  let '(experience, currentRole) := st in
  let '(experience, currentRole) :=
    match String_match true jobTitle_re line with
    | Some jobTitleMatch =>
        let experience :=
          match currentRole with
          | Some role => experience ++ [role]
          | None => experience
          end in
        let companyMatch := String_match true company_re line in
        let durationMatch := String_match true duration_re line in
        (experience,
         Some {| jobTitle := trim (group line jobTitleMatch 1);
                 company := match companyMatch with
                            | Some cm => trim (group line cm 1)
                            | None => "Unknown"
                            end;
                 duration := match durationMatch with
                             | Some dm => matched_text line dm
                             | None => "Unknown"
                             end;
                 yearsInRole := calculateYearsInRole currentYear line durationMatch;
                 responsibilities := [];
                 exp_skills := [] |})
    | None => (experience, currentRole)
    end in
  match currentRole, String_match false bullet_re line with
  | Some role, Some _ =>
      (experience,
       Some (push_responsibility role (trim (String_remove_first false bullet_strip_re line))))
  | _, _ => (experience, currentRole)
  end.

Definition extractExperience (currentYear : Z) (resumeText : string)
    : list ExtractedExperience :=
  let '(experience, currentRole) :=
    fold_left (experience_step currentYear) (split_lines resumeText) ([], None) in
  match currentRole with
  | Some role => experience ++ [role]
  | None => experience
  end.

End Parser.

Import Parser.

Module ParseResume.

Definition calculateYearsExperience (experience : list ExtractedExperience) : Q :=
  (inject_Z (Math_round
     (inject_Z (fold_left (fun total exp => (total + yearsInRole exp)%Z) experience 0%Z) * 10))
   / 10)%Q.

Definition calculateExtractionScore (skills : list ExtractedSkill)
    (education : list ExtractedEducation) (experience : list ExtractedExperience) : Q :=
  let score := (5 # 10)%Q in
  let score := if 5 <? List.length skills then (score + (2 # 10))%Q else score in
  let score := if 0 <? List.length education then (score + (15 # 100))%Q else score in
  let score := if 0 <? List.length experience then (score + (15 # 100))%Q else score in
  Qmin 1 score.

(** ToInt32 *)
Definition to_int32 (z : Z) : Z := ((z + 2 ^ 31) mod 2 ^ 32 - 2 ^ 31)%Z.

(** [hash = ((hash << 5) - hash) + word.charCodeAt(i); hash = hash & hash] *)
Definition hash_step (hash : Z) (c : ascii) : Z :=
  to_int32 (to_int32 (hash * 32) - hash + Z.of_nat (code c)).

Definition hash_word (word : string) : Z :=
  fold_left hash_step (list_ascii_of_string word) 0%Z.

(** [embedding[index] += v], for an index inside the array. *)
Definition add_at (index : nat) (v : Q) (embedding : list Q) : list Q :=
  firstn index embedding ++ (nth index embedding 0 + v)%Q :: skipn (S index) embedding.

(** /\b\w+\b/g *)
Definition word_re : regex := seqs [RWordB; plus (AClass [CWord]); RWordB].

(** [Math.sqrt] is a parameter of the model. *)
Definition generateSimpleEmbeddings (Math_sqrt : Q -> Q) (text : string) : list Q :=
  let words := String_match_all false word_re (toLowerCase text) in
  let embedding := repeat 0%Q 768 in
  let embedding :=
    fold_left
      (fun embedding word =>
         let index := Z.to_nat (Z.abs (hash_word word) mod 768) in
         add_at index (1 / inject_Z (Z.of_nat (List.length words)))%Q embedding)
      words embedding in
  let norm := Math_sqrt (fold_left (fun sum val => sum + val * val)%Q embedding 0%Q) in
  if Qlt_bool 0 norm then map (fun val => val / norm)%Q embedding else embedding.

(** Number to string, for the non-negative multiples of 1/10 that
    [calculateYearsExperience] returns. *)
Definition Number_toString (q : Q) : string :=
  let tenths := Qfloor (q * 10) in
  let whole := NilZero.string_of_int (Z.to_int (tenths / 10)) in
  if (tenths mod 10 =? 0)%Z then whole
  else String.append whole
         (String.append "." (NilZero.string_of_int (Z.to_int (tenths mod 10)))).

Definition generateSummary (skills : list ExtractedSkill)
    (experience : list ExtractedExperience) (yearsExperience : Q) : string :=
  let topSkills := join ", " (map skill (firstn 5 skills)) in
  let latestRole :=
    match experience with
    | exp :: _ => if String.eqb (jobTitle exp) "" then "Professional" else jobTitle exp
    | [] => "Professional"
    end in
  String.append (Number_toString yearsExperience)
    (String.append " years of experience as "
       (String.append latestRole
          (String.append " with expertise in " (String.append topSkills ".")))).

(** The body of [parseResume] after the call of [extractSkills]. *)
Definition parse_after_skills (Math_sqrt : Q -> Q) (currentYear : Z)
    (patterns : list (RegExp * EducationLevel)) (resumeText : string)
    (skills : list ExtractedSkill)
    : ParsedResume * list (RegExp * EducationLevel) :=
  let '(education, patterns') := extractEducation patterns resumeText in
  let experience := extractExperience currentYear resumeText in
  let totalYearsExperience := calculateYearsExperience experience in
  let extractionScore := calculateExtractionScore skills education experience in
  let embeddings := generateSimpleEmbeddings Math_sqrt resumeText in
  let summary := generateSummary skills experience totalYearsExperience in
  ({| skills := skills;
      education := education;
      experience := experience;
      totalYearsExperience := totalYearsExperience;
      summary := summary;
      embeddings := embeddings;
      extractionScore := extractionScore |},
   patterns').

(** [parseResume]: the value returned or the exception thrown, and the
    pattern table the call leaves.  The calendar year and the table are
    what the call reads besides its argument. *)
Definition parseResume (Math_sqrt : Q -> Q) (currentYear : Z)
    (patterns : list (RegExp * EducationLevel)) (resumeText : string)
    : result ParsedResume * list (RegExp * EducationLevel) :=
  match extractSkills resumeText with
  | Err e => (Err e, patterns)
  | Ok skills =>
      let '(parsed, patterns') :=
        parse_after_skills Math_sqrt currentYear patterns resumeText skills in
      (Ok parsed, patterns')
  end.

(** The call of [parseResume] on a text reads the clock: some line with
    a job title has a duration that ends in "present" or "current". *)
Definition open_ended (line : string) : bool :=
  match String_match true jobTitle_re line, String_match true duration_re line with
  | Some _, Some dm =>
      String.eqb (toLowerCase (group line dm 2)) "present"
      || String.eqb (toLowerCase (group line dm 2)) "current"
  | _, _ => false
  end.

Definition reads_clock (resumeText : string) : bool :=
  existsb open_ended (split_lines resumeText).

End ParseResume.

Import ParseResume.

(** ** Ranking and narrative ([competencyScorer.ts], lines 270-302) *)

Record Candidate : Type := mkCandidate {
  id : string;
  scoringResult : ScoringResult
}.

Record RankedCandidate : Type := mkRanked {
  ranked_id : string;                        (* the field [id] *)
  rank : nat;
  ranked_scoringResult : ScoringResult       (* the field [scoringResult] *)
}.

Inductive CulturalFit : Type := High | Medium | Low.

Inductive SuccessPrediction : Type := HighlyLikely | Likely | Possible | Unlikely.

Module Ranking.

Definition by_rankingScore_desc (a b : Candidate) : Q :=
  (inject_Z (rankingScore (scoringResult b)) - inject_Z (rankingScore (scoringResult a)))%Q.

(** [a.map((x, index) => f(x, index))], the index counted from [start]. *)
Fixpoint map_index {A B : Type} (f : A -> nat -> B) (start : nat) (l : list A) : list B :=
  match l with
  | [] => []
  | x :: l' => f x start :: map_index f (S start) l'
  end.

Definition rankCandidates (candidates : list Candidate) : list RankedCandidate :=
  map_index (fun candidate index =>
               {| ranked_id := id candidate;
                  rank := index + 1;
                  ranked_scoringResult := scoringResult candidate |})
            0 (sort_by by_rankingScore_desc candidates).

Definition generateCulturalFitNarrative (culturalFitIndex : Q) : CulturalFit :=
  if Qle_bool 75 culturalFitIndex then High
  else if Qle_bool 50 culturalFitIndex then Medium
  else Low.

Definition generateSuccessPrediction (overallFitScore culturalFitIndex yearsExperience : Q)
    : SuccessPrediction :=
  let combinedScore := (overallFitScore * (6 # 10) + culturalFitIndex * (4 # 10))%Q in
  let experienceFactor := (Qmin (yearsExperience / 5) 1 * 20)%Q in
  let finalScore := (combinedScore + experienceFactor)%Q in
  if Qle_bool 85 finalScore then HighlyLikely
  else if Qle_bool 70 finalScore then Likely
  else if Qle_bool 50 finalScore then Possible
  else Unlikely.

End Ranking.

Import Ranking.

(** ** Resume fit and framework mapping ([resumeParser.ts], lines 260-320) *)

Record FitDetails : Type := mkFitDetails {
  skillScore : Z;
  educationScore : Z;
  experienceScore : Z;
  matchedSkills : nat;
  totalRequired : nat;
  yearsExperience : Q
}.

Record ResumeFit : Type := mkResumeFit {
  matchScore : Z;
  details : FitDetails
}.

(** An entry of the competency framework: both names are optional. *)
Record FrameworkEntry : Type := mkFrameworkEntry {
  skill_name : option string;
  competency_name : option string
}.

Record FrameworkMapping : Type := mkMapping {
  mapped_skill : string;                     (* the field [skill] *)
  frameworkMatch : string;
  mapped_confidence : Q                      (* the field [confidence] *)
}.

Module ResumeFitting.

(** A required skill is matched when some resume skill contains it or
    is contained in it, both in lower case. *)
Definition skill_matched (resumeSkillsLower : list string) (skill : string) : bool :=
  existsb (fun s => includes s (toLowerCase skill) || includes (toLowerCase skill) s)
          resumeSkillsLower.

(** Truthiness of an optional string and of an optional number. *)
Definition truthy_string (s : option string) : bool :=
  match s with
  | Some t => negb (String.eqb t "")
  | None => false
  end.

Definition truthy_number (x : option Q) : bool :=
  match x with
  | Some q => negb (Qeq_bool q 0)
  | None => false
  end.

Definition scoreResumeFit (parsedResume : ParsedResume) (requiredSkills : list string)
    (requiredEducation : option string) (yearsRequired : option Q) : ResumeFit :=
  let resumeSkillsLower := map (fun s => toLowerCase (skill s)) (skills parsedResume) in
  let matchedSkills :=
    fold_left (fun matched skill =>
                 if skill_matched resumeSkillsLower skill then matched + 1 else matched)
              requiredSkills 0 in
  let skillScore :=
    if 0 <? List.length requiredSkills
    then (inject_Z (Z.of_nat matchedSkills)
          / inject_Z (Z.of_nat (List.length requiredSkills)) * 100)%Q
    else 50%Q in
  let educationScore :=
    if truthy_string requiredEducation
    then (if 0 <? List.length (education parsedResume) then 80%Q else 40%Q)
    else 100%Q in
  let experienceScore :=
    if truthy_number yearsRequired
    then Qmin 100 (totalYearsExperience parsedResume
                   / match yearsRequired with Some y => y | None => 0 end * 100)%Q
    else 100%Q in
  let matchScore :=
    (skillScore * (5 # 10) + educationScore * (3 # 10) + experienceScore * (2 # 10))%Q in
  {| matchScore := Math_round matchScore;
     details :=
       {| skillScore := Math_round skillScore;
          educationScore := Math_round educationScore;
          experienceScore := Math_round experienceScore;
          matchedSkills := matchedSkills;
          totalRequired := List.length requiredSkills;
          yearsExperience := totalYearsExperience parsedResume |} |}.

(** [name?.toLowerCase().includes(label)]; an absent name is falsy. *)
Definition name_includes (name : option string) (label : string) : bool :=
  match name with
  | Some n => includes (toLowerCase n) label
  | None => false
  end.

Definition entry_matches (label : string) (comp : FrameworkEntry) : bool :=
  name_includes (skill_name comp) label || name_includes (competency_name comp) label.

(** [a || b || 'Unmatched'] on optional strings. *)
Definition first_truthy (a b : option string) (default : string) : string :=
  if truthy_string a then match a with Some t => t | None => default end
  else if truthy_string b then match b with Some t => t | None => default end
  else default.

Definition mapSkillsToCompetencyFramework (extractedSkills : list ExtractedSkill)
    (icfFramework : list FrameworkEntry) : list FrameworkMapping :=
  map (fun s =>
         let found := find (entry_matches (toLowerCase (skill s))) icfFramework in
         {| mapped_skill := skill s;
            frameworkMatch :=
              match found with
              | Some m => first_truthy (skill_name m) (competency_name m) "Unmatched"
              | None => "Unmatched"
              end;
            mapped_confidence :=
              match found with
              | Some _ => (85 # 100)%Q
              | None => (confidence s * (6 # 10))%Q
              end |})
      extractedSkills.

End ResumeFitting.

Import ResumeFitting.

(** ** Vocabulary of the statements *)

(** Row [i] of the table, as the array holds it between two turns of the
    outer loop. *)
Definition lev_row (s1 s2 : string) (i : nat) : list nat :=
  map (lev s1 s2 i) (seq 0 (S (String.length s2))).

Definition normalize (s : string) : string := trim (toLowerCase s).

(** The comparator [(a, b) => key(b) - key(a)]: descending keys. *)
Definition desc_cmp {A : Type} (key : A -> Q) (a b : A) : Q := (key b - key a)%Q.

Definition desc {A : Type} (key : A -> Q) (a b : A) : Prop := (key b <= key a)%Q.

Definition match_entry (required : string) (s : ExtractedSkill) : CompetencyMatch :=
  {| competency := required;
     extractedSkill := skill s;
     confidenceScore := (calculateSimilarity required (skill s) * confidence s)%Q;
     proficiencyLevel := inferProficiencyLevel (skill s);
     gap := false |}.

(** A skill clears the acceptance threshold for a competency. *)
Definition clears (required : string) (s : ExtractedSkill) : Prop :=
  (5 # 10 < calculateSimilarity required (skill s))%Q.

(** What the inner loop of [matchCompetencies] has established after
    the skills [seen]. *)
Definition match_inv (required : string) (seen : list ExtractedSkill)
    (st : option CompetencyMatch * Q) : Prop :=
  match fst st with
  | None => snd st = 0%Q /\ forall s, In s seen -> ~ clears required s
  | Some m =>
      exists s, In s seen /\ clears required s /\ m = match_entry required s /\
                snd st = calculateSimilarity required (skill s)
  end.

(** Every entry is a gap entry of confidence 0 or carries a confidence
    in the unit interval. *)
Definition unit_entry (m : CompetencyMatch) : Prop :=
  if gap m then confidenceScore m = 0%Q
  else (0 <= confidenceScore m <= 1)%Q.

Definition unit_confidence (s : ExtractedSkill) : Prop :=
  (0 <= confidence s <= 1)%Q.

Definition matched_count (l : list CompetencyMatch) : nat :=
  List.length (filter (fun m => negb (gap m)) l).

Fixpoint all_space (s : string) : bool :=
  match s with
  | EmptyString => true
  | String c s' => is_space c && all_space s'
  end.

(** [(k, v)] is the last entry of [p] with key [k]. *)
Definition last_with_key {V : Type} (p : list (string * V)) (k : string) (v : V) : Prop :=
  exists l1 l2, p = l1 ++ (k, v) :: l2 /\ forall kv, In kv l2 -> fst kv <> k.

Definition label (s : ExtractedSkill) : string := toLowerCase (skill s).

(** [e] is the last hit of [hits] with its label. *)
Definition last_hit (hits : list ExtractedSkill) (e : ExtractedSkill) : Prop :=
  exists l1 l2, hits = l1 ++ e :: l2 /\ forall e', In e' l2 -> label e' <> label e.

(** The pattern matches somewhere in the line, whatever its [lastIndex]. *)
Definition matches_line (line : string) (p : RegExp * EducationLevel) : bool :=
  match search_from (re_ignoreCase (fst p)) (re_pattern (fst p)) 0 line with
  | Some _ => true
  | None => false
  end.

(** A pattern table as the module has it when loaded. *)
Definition fresh_table (patterns : list (RegExp * EducationLevel)) : Prop :=
  Forall (fun p => re_global (fst p) = true /\ lastIndex (fst p) = 0) patterns.

Definition keyword_source (kw : string) : string :=
  String.append "\b" (String.append (toLowerCase kw) "\b").

Definition newline : string := String "010" "".

(** Scenario 2 of the specification. *)
Definition scenario2 : string :=
  "Senior Software Engineer at Acme Corp, 2015-2020. - Led a team of 5 engineers.".


(** /bachelor|b\.s|b\.a|undergraduate/gi, as a fresh object. *)
Definition bachelor_re : RegExp :=
  global_ci (alts [lit "bachelor"; lit "b.s"; lit "b.a"; lit "undergraduate"]).

Definition two_lines : string :=
  String.append "my undergraduate years"
    (String.append newline "Bachelor and Master in Arts").

Definition two_degrees : string :=
  String.append "Bachelor of Science in Physics"
    (String.append newline "Bachelor of Arts in History").

Definition open_ended_resume : string := "Developer at Acme, 2020 - present".

Definition one_degree : string := "Bachelor of Science in Physics".

(** The similarity of a skill to a required competency. *)
Definition sim (required : string) (s : ExtractedSkill) : Q :=
  calculateSimilarity required (skill s).

(** The text of a strength, as [identifyStrengths] writes it. *)
Definition strength_text (m : CompetencyMatch) : string :=
  String.append (extractedSkill m)
    (String.append " (" (String.append (Proficiency_name (proficiencyLevel m)) ")")).

(** A ranked candidate without its rank. *)
Definition unranked (r : RankedCandidate) : Candidate :=
  {| id := ranked_id r; scoringResult := ranked_scoringResult r |}.

Definition candidate_score (c : Candidate) : Q :=
  inject_Z (rankingScore (scoringResult c)).

Definition prediction_level (p : SuccessPrediction) : nat :=
  match p with
  | Unlikely => 0
  | Possible => 1
  | Likely => 2
  | HighlyLikely => 3
  end.

(** The final score inside [generateSuccessPrediction] and the label of
    a final score. *)
Definition final_score (overallFitScore culturalFitIndex yearsExperience : Q) : Q :=
  (overallFitScore * (6 # 10) + culturalFitIndex * (4 # 10)
   + Qmin (yearsExperience / 5) 1 * 20)%Q.

Definition prediction_of (finalScore : Q) : SuccessPrediction :=
  if Qle_bool 85 finalScore then HighlyLikely
  else if Qle_bool 70 finalScore then Likely
  else if Qle_bool 50 finalScore then Possible
  else Unlikely.

Definition has_title (line : string) : bool :=
  match String_match true jobTitle_re line with Some _ => true | None => false end.

Definition has_bullet (line : string) : bool :=
  match String_match false bullet_re line with Some _ => true | None => false end.

Definition has_degree_phrase (line : string) : bool :=
  match String_match true degree_re line with Some _ => true | None => false end.

(** The roles of the state of [extractExperience]: the closed ones and
    the open one. *)
Definition roles (st : list ExtractedExperience * option ExtractedExperience)
    : list ExtractedExperience :=
  fst st ++ match snd st with Some role => [role] | None => [] end.

Definition responsibility_count (l : list ExtractedExperience) : nat :=
  fold_right (fun e n => List.length (responsibilities e) + n) 0 l.

Definition years_sum (l : list ExtractedExperience) : Z :=
  fold_left (fun total exp => (total + yearsInRole exp)%Z) l 0%Z.

Definition starts_clean (s : string) : bool :=
  match s with
  | EmptyString => true
  | String c _ => negb (is_space c)
  end.

(** The source built for a keyword is a pattern the constructor accepts. *)
Definition compiles (kw : string) : bool :=
  match RegExp_new_gi (keyword_source kw) with
  | Ok _ => true
  | Err _ => false
  end.

Definition without_cpp (kws : list string) : list string :=
  filter (fun kw => negb (String.eqb kw "C++")) kws.

(** The test of [extractSkills] for one keyword on the lower-cased text. *)
Definition keyword_hit (processedText kw : string) : bool :=
  match RegExp_new_gi (keyword_source kw) with
  | Ok regex => fst (RegExp_test regex processedText)
  | Err _ => false
  end.

(** The hits [extractSkills] collects over two vocabularies that compile. *)
Definition keyword_hits (technical soft : list string) (processedText : string)
    : list ExtractedSkill :=
  map (fun kw => mkSkill kw (9 # 10) "technical") (filter (keyword_hit processedText) technical)
  ++ map (fun kw => mkSkill kw (75 # 100) "soft") (filter (keyword_hit processedText) soft).

(** ** Facts about the edit-distance loop *)

Section EditDistanceFacts.

Variables s1 s2 : string.

Lemma lev_0_l (j : nat) : lev s1 s2 0 j = j.
Proof. reflexivity. Qed.

Lemma lev_0_r (i : nat) : lev s1 s2 i 0 = i.
Proof. destruct i; reflexivity. Qed.

Lemma lev_S_S (i j : nat) :
  lev s1 s2 (S i) (S j) =
  if opt_ascii_eqb (charAt s1 i) (charAt s2 j) then lev s1 s2 i j
  else Nat.min (Nat.min (lev s1 s2 i j) (lev s1 s2 (S i) j)) (lev s1 s2 i (S j)) + 1.
Proof. reflexivity. Qed.

Lemma lev_le_max (i j : nat) : lev s1 s2 i j <= Nat.max i j.
Proof.
  revert j. induction i as [|i IHi]; intro j.
  - rewrite lev_0_l. lia.
  - induction j as [|j IHj].
    + rewrite lev_0_r. lia.
    + rewrite lev_S_S. destruct (opt_ascii_eqb _ _).
      * specialize (IHi j). lia.
      * specialize (IHi j). lia.
Qed.

End EditDistanceFacts.

Lemma opt_ascii_eqb_sym (a b : option ascii) :
  opt_ascii_eqb a b = opt_ascii_eqb b a.
Proof.
  destruct a as [x|], b as [y|]; simpl; auto using Ascii.eqb_sym.
Qed.

Lemma lev_sym (s1 s2 : string) (i j : nat) :
  lev s1 s2 i j = lev s2 s1 j i.
Proof.
  revert j. induction i as [|i IHi]; intro j.
  - rewrite lev_0_l, lev_0_r. reflexivity.
  - induction j as [|j IHj].
    + rewrite lev_0_l, lev_0_r. reflexivity.
    + rewrite !lev_S_S, opt_ascii_eqb_sym, IHj, (IHi j), (IHi (S j)).
      destruct (opt_ascii_eqb _ _); [reflexivity|]. lia.
Qed.

Lemma levenshtein_sym (s1 s2 : string) : levenshtein s1 s2 = levenshtein s2 s1.
Proof. unfold levenshtein. apply lev_sym. Qed.

Lemma levenshtein_le_max (s1 s2 : string) :
  levenshtein s1 s2 <= Nat.max (String.length s1) (String.length s2).
Proof. apply lev_le_max. Qed.

(** Array reads and writes at the seam of [l1 ++ x :: l2]. *)
Lemma firstn_seam (l1 l2 : list nat) : firstn (List.length l1) (l1 ++ l2) = l1.
Proof. induction l1 as [|a l1 IH]; simpl; [destruct l2|rewrite IH]; reflexivity. Qed.

Lemma skipn_seam (l1 l2 : list nat) (x : nat) :
  skipn (S (List.length l1)) (l1 ++ x :: l2) = l2.
Proof. induction l1 as [|a l1 IH]; simpl; [reflexivity|exact IH]. Qed.

Lemma array_set_middle (l1 l2 : list nat) (x v : nat) :
  array_set (List.length l1) v (l1 ++ x :: l2) = l1 ++ v :: l2.
Proof.
  unfold array_set. rewrite length_app. simpl List.length.
  replace (List.length l1 <? List.length l1 + S (List.length l2)) with true
    by (symmetry; apply Nat.ltb_lt; lia).
  rewrite firstn_seam, skipn_seam. reflexivity.
Qed.

Lemma array_set_end (l : list nat) (v : nat) :
  array_set (List.length l) v l = l ++ [v].
Proof.
  unfold array_set. rewrite Nat.ltb_irrefl, Nat.sub_diag. reflexivity.
Qed.

Lemma array_get_middle (l1 l2 : list nat) (x : nat) :
  array_get (l1 ++ x :: l2) (List.length l1) = x.
Proof. unfold array_get. apply nth_middle. Qed.

Lemma array_get_middle_S (l1 l2 : list nat) (x y : nat) :
  array_get (l1 ++ x :: y :: l2) (S (List.length l1)) = y.
Proof.
  unfold array_get.
  replace (l1 ++ x :: y :: l2) with ((l1 ++ [x]) ++ y :: l2)
    by (rewrite <- app_assoc; reflexivity).
  replace (S (List.length l1)) with (List.length (l1 ++ [x]))
    by (rewrite length_app; simpl; lia).
  apply nth_middle.
Qed.

Section LoopInvariants.

Variables s1 s2 : string.
Let n := String.length s2.

(** First turn of the outer loop: the array is filled with 0..n. *)
Lemma inner_loop_first (k : nat) :
  fold_left (inner_step s1 s2 0) (seq 0 k) (0, []) = (0, seq 0 k).
Proof.
  induction k as [|k IH]; [reflexivity|].
  rewrite seq_S, fold_left_app, IH. simpl.
  f_equal.
  pose proof (array_set_end (seq 0 k) k) as H.
  rewrite length_seq in H. exact H.
Qed.

Lemma inner_step_S (i k lastValue : nat) (costs : list nat) :
  inner_step s1 s2 (S i) (lastValue, costs) (S k) =
  ((if opt_ascii_eqb (charAt s1 i) (charAt s2 k) then array_get costs k
    else Nat.min (Nat.min (array_get costs k) lastValue) (array_get costs (S k)) + 1),
   array_set k lastValue costs).
Proof.
  unfold inner_step.
  change (S i =? 0) with false. change (0 <? S k) with true. cbv iota.
  replace (S i - 1) with i by lia. replace (S k - 1) with k by lia.
  reflexivity.
Qed.

(** Later turns: after the turns j = 0..k of row [S i] the array holds
    the new row up to index k-1 and the old row from index k on, and
    [lastValue] is the new entry at k. *)
Lemma inner_loop_next (i k : nat) :
  k <= n ->
  fold_left (inner_step s1 s2 (S i)) (seq 0 (S k)) (S i, lev_row s1 s2 i) =
  (lev s1 s2 (S i) k,
   map (lev s1 s2 (S i)) (seq 0 k) ++ map (lev s1 s2 i) (seq k (S n - k))).
Proof.
  induction k as [|k IH]; intro Hk.
  - rewrite Nat.sub_0_r. reflexivity.
  - rewrite seq_S, fold_left_app, IH by lia.
    cbn [fold_left Nat.add]. rewrite inner_step_S.
    rewrite (seq_S k 0), map_app.
    replace (S n - k) with (S (S (n - S k))) by lia.
    replace (S n - S k) with (S (n - S k)) by lia.
    cbn [seq map].
    assert (Hlen : List.length (map (lev s1 s2 (S i)) (seq 0 k)) = k)
      by (rewrite length_map, length_seq; reflexivity).
    pose proof (array_get_middle (map (lev s1 s2 (S i)) (seq 0 k))
                  (lev s1 s2 i (S k) :: map (lev s1 s2 i) (seq (S (S k)) (n - S k)))
                  (lev s1 s2 i k)) as G1.
    pose proof (array_get_middle_S (map (lev s1 s2 (S i)) (seq 0 k))
                  (map (lev s1 s2 i) (seq (S (S k)) (n - S k)))
                  (lev s1 s2 i k) (lev s1 s2 i (S k))) as G2.
    pose proof (array_set_middle (map (lev s1 s2 (S i)) (seq 0 k))
                  (lev s1 s2 i (S k) :: map (lev s1 s2 i) (seq (S (S k)) (n - S k)))
                  (lev s1 s2 i k) (lev s1 s2 (S i) k)) as G3.
    rewrite Hlen in G1, G2, G3. rewrite G1, G2, G3, lev_S_S.
    f_equal.
    rewrite <- app_assoc. reflexivity.
Qed.

Lemma outer_step_first : outer_step s1 s2 [] 0 = lev_row s1 s2 0.
Proof.
  unfold outer_step. fold n. rewrite inner_loop_first. simpl (0 <? 0).
  unfold lev_row. rewrite (map_ext _ (fun j => j) (lev_0_l s1 s2)), map_id.
  reflexivity.
Qed.

Lemma outer_step_next (i : nat) :
  outer_step s1 s2 (lev_row s1 s2 i) (S i) = lev_row s1 s2 (S i).
Proof.
  unfold outer_step. fold n. rewrite inner_loop_next by lia.
  simpl (0 <? S i). cbv iota.
  replace (S n - n) with 1 by lia. simpl map.
  assert (Hlen : List.length (map (lev s1 s2 (S i)) (seq 0 n)) = n)
    by (rewrite length_map, length_seq; reflexivity).
  rewrite <- Hlen at 1. rewrite array_set_middle.
  unfold lev_row. rewrite seq_S, map_app. reflexivity.
Qed.

Lemma outer_loop_rows (m : nat) :
  fold_left (outer_step s1 s2) (seq 0 (S m)) [] = lev_row s1 s2 m.
Proof.
  induction m as [|m IH].
  - simpl. apply outer_step_first.
  - rewrite seq_S, fold_left_app, IH. simpl. apply outer_step_next.
Qed.

End LoopInvariants.

(** The loop computes the Levenshtein distance. *)
Lemma getEditDistance_levenshtein (s1 s2 : string) :
  getEditDistance s1 s2 = levenshtein s1 s2.
Proof.
  unfold getEditDistance, levenshtein. rewrite outer_loop_rows.
  unfold lev_row, array_get.
  rewrite (nth_indep _ 0 (lev s1 s2 (String.length s1) 0)).
  - rewrite map_nth, seq_nth by lia. reflexivity.
  - rewrite length_map, length_seq. lia.
Qed.

(** ** Facts about [calculateSimilarity] *)

Lemma Qdiv_unit_interval (d n : Z) :
  (0 <= d <= n)%Z -> (0 < n)%Z ->
  (0 <= inject_Z d / inject_Z n <= 1)%Q.
Proof.
  intros [Hd Hn] Hpos.
  assert (Hq : (0 < inject_Z n)%Q) by (change 0%Q with (inject_Z 0); rewrite <- Zlt_Qlt; exact Hpos).
  split.
  - apply Qle_shift_div_l; [exact Hq|]. rewrite Qmult_0_l.
    change 0%Q with (inject_Z 0). rewrite <- Zle_Qle. exact Hd.
  - apply Qle_shift_div_r; [exact Hq|]. rewrite Qmult_1_l.
    rewrite <- Zle_Qle. exact Hn.
Qed.

Lemma length_zero_empty (s : string) : String.length s = 0 -> s = "".
Proof. destruct s; [reflexivity|discriminate]. Qed.

(** The three rules of the matcher, in the order the code tests them. *)
Lemma calculateSimilarity_rules (a b : string) :
  let s1 := normalize a in
  let s2 := normalize b in
  let longer := if String.length s2 <? String.length s1 then s1 else s2 in
  let shorter := if String.length s2 <? String.length s1 then s2 else s1 in
  (s1 = s2 -> calculateSimilarity a b = 1%Q) /\
  (s1 <> s2 -> includes s1 s2 || includes s2 s1 = true ->
   calculateSimilarity a b = (85 # 100)%Q) /\
  (s1 <> s2 -> includes s1 s2 || includes s2 s1 = false ->
   String.length longer <> 0 /\
   calculateSimilarity a b =
   (1 - inject_Z (Z.of_nat (levenshtein shorter longer))
        / inject_Z (Z.of_nat (String.length longer)))%Q).
Proof.
  intros s1 s2 longer shorter. unfold calculateSimilarity.
  fold (normalize a) (normalize b). fold s1 s2. fold longer shorter.
  split; [|split].
  - intros ->. rewrite String.eqb_refl. reflexivity.
  - intros Hne Hinc. apply String.eqb_neq in Hne. rewrite Hne, Hinc. reflexivity.
  - intros Hne Hinc.
    assert (Hlen : String.length longer <> 0).
    { intro H0. apply Hne.
      assert (String.length s1 = 0 /\ String.length s2 = 0) as [H1 H2].
      { subst longer. destruct (Nat.ltb_spec (String.length s2) (String.length s1)); lia. }
      rewrite (length_zero_empty _ H1), (length_zero_empty _ H2). reflexivity. }
    split; [exact Hlen|].
    apply String.eqb_neq in Hne. rewrite Hne, Hinc.
    apply Nat.eqb_neq in Hlen. rewrite Hlen.
    rewrite getEditDistance_levenshtein. reflexivity.
Qed.

Lemma calculateSimilarity_bounds (a b : string) :
  (0 <= calculateSimilarity a b <= 1)%Q.
Proof.
  destruct (calculateSimilarity_rules a b) as (R1 & R2 & R3).
  destruct (string_dec (normalize a) (normalize b)) as [E|NE].
  - rewrite (R1 E). split; [discriminate|apply Qle_refl].
  - destruct (includes (normalize a) (normalize b) || includes (normalize b) (normalize a)) eqn:Hinc.
    + rewrite (R2 NE eq_refl). split; discriminate.
    + destruct (R3 NE eq_refl) as [Hlen ->].
      set (longer := if _ <? _ then normalize a else normalize b) in *.
      set (shorter := if _ <? _ then normalize b else normalize a) in *.
      pose proof (levenshtein_le_max shorter longer) as Hmax.
      assert (Hsl : String.length shorter <= String.length longer).
      { subst shorter longer.
        destruct (Nat.ltb_spec (String.length (normalize b)) (String.length (normalize a))); lia. }
      assert (Hd : (0 <= Z.of_nat (levenshtein shorter longer)
                      <= Z.of_nat (String.length longer))%Z) by lia.
      assert (Hn : (0 < Z.of_nat (String.length longer))%Z) by lia.
      destruct (Qdiv_unit_interval _ _ Hd Hn) as [H0 H1].
      split; lra.
Qed.

Lemma includes_empty (s : string) : includes s "" = true.
Proof. destruct s; reflexivity. Qed.

Lemma calculateSimilarity_sym (a b : string) :
  calculateSimilarity a b = calculateSimilarity b a.
Proof.
  unfold calculateSimilarity. fold (normalize a) (normalize b).
  set (s1 := normalize a). set (s2 := normalize b).
  rewrite (String.eqb_sym s2 s1).
  destruct (String.eqb s1 s2); [reflexivity|].
  rewrite (orb_comm (includes s2 s1)).
  destruct (includes s1 s2 || includes s2 s1); [reflexivity|].
  rewrite !getEditDistance_levenshtein.
  destruct (Nat.ltb_spec (String.length s2) (String.length s1)) as [H|H];
    destruct (Nat.ltb_spec (String.length s1) (String.length s2)) as [H'|H'];
    try lia; try reflexivity.
  assert (E : String.length s1 = String.length s2) by lia.
  rewrite E, (levenshtein_sym s1 s2). reflexivity.
Qed.

(** ** Facts about numbers and sorting *)

Lemma Qlt_bool_iff (x y : Q) : Qlt_bool x y = true <-> (x < y)%Q.
Proof.
  unfold Qlt_bool. rewrite negb_true_iff, <- not_true_iff_false, Qle_bool_iff.
  split; [apply Qnot_le_lt|apply Qlt_not_le].
Qed.

Lemma Qlt_bool_false_iff (x y : Q) : Qlt_bool x y = false <-> (y <= x)%Q.
Proof.
  unfold Qlt_bool. rewrite negb_false_iff. apply Qle_bool_iff.
Qed.

Lemma Math_round_bounds (x : Q) (lo hi : Z) :
  (inject_Z lo <= x <= inject_Z hi)%Q -> (lo <= Math_round x <= hi)%Z.
Proof.
  intros [Hlo Hhi]. unfold Math_round. split.
  - rewrite <- (Qfloor_Z lo). apply Qfloor_resp_le. lra.
  - pose proof (Qfloor_le (x + (1 # 2))) as Hf.
    assert (Hlt : (inject_Z (Qfloor (x + (1 # 2))) < inject_Z (hi + 1))%Q).
    { rewrite inject_Z_plus. change (inject_Z 1) with 1%Q. lra. }
    rewrite <- Zlt_Qlt in Hlt. lia.
Qed.

Lemma Qmax_bounds (x lo hi : Q) :
  (lo <= hi)%Q -> (x <= hi)%Q -> (lo <= Qmax lo x <= hi)%Q.
Proof.
  intros Hlh Hx. unfold Qmax. destruct (Qle_bool lo x) eqn:E.
  - apply Qle_bool_iff in E. split; assumption.
  - split; [apply Qle_refl|exact Hlh].
Qed.

Section SortByKey.

Variable A : Type.
Variable key : A -> Q.

Lemma insert_by_perm (cmp : A -> A -> Q) (x : A) (l : list A) :
  Permutation (insert_by cmp x l) (x :: l).
Proof.
  induction l as [|y l IH]; simpl; [reflexivity|].
  destruct (Qle_bool (cmp x y) 0); [reflexivity|].
  rewrite IH. apply perm_swap.
Qed.

Lemma sort_by_perm (cmp : A -> A -> Q) (l : list A) :
  Permutation (sort_by cmp l) l.
Proof.
  induction l as [|x l IH]; simpl; [reflexivity|].
  rewrite insert_by_perm. apply perm_skip, IH.
Qed.

Lemma insert_by_desc (x : A) (l : list A) :
  StronglySorted (desc key) l -> StronglySorted (desc key) (insert_by (desc_cmp key) x l).
Proof.
  induction 1 as [|y l Hs IH Hy]; simpl.
  - constructor; constructor.
  - destruct (Qle_bool (desc_cmp key x y) 0) eqn:E.
    + apply Qle_bool_iff in E. unfold desc_cmp in E.
      assert (Hxy : desc key x y) by (unfold desc; lra).
      constructor; [constructor; assumption|].
      constructor; [exact Hxy|].
      eapply Forall_impl; [|exact Hy]. unfold desc in *. intros a Ha. lra.
    + assert (Hyx : desc key y x).
      { unfold desc. destruct (Qlt_le_dec (key y) (key x)) as [Hlt|Hle]; [|exact Hle].
        exfalso. rewrite <- not_true_iff_false, Qle_bool_iff in E. apply E.
        unfold desc_cmp. lra. }
      constructor; [exact IH|].
      apply (Permutation_Forall (Permutation_sym (insert_by_perm (desc_cmp key) x l))).
      constructor; assumption.
Qed.

Lemma sort_by_desc (l : list A) : StronglySorted (desc key) (sort_by (desc_cmp key) l).
Proof.
  induction l as [|x l IH]; simpl; [constructor|].
  apply insert_by_desc, IH.
Qed.

End SortByKey.

(** ** Facts about [matchCompetencies] *)

Lemma match_step_inv (required : string) (seen : list ExtractedSkill)
    (st : option CompetencyMatch * Q) (e : ExtractedSkill) :
  match_inv required seen st ->
  match_inv required (seen ++ [e]) (match_step required st e).
Proof.
  destruct st as [bm bs]. unfold match_inv, match_step. simpl fst. simpl snd.
  intro Inv.
  destruct (Qlt_bool bs (calculateSimilarity required (skill e))
            && Qlt_bool (5 # 10) (calculateSimilarity required (skill e))) eqn:E.
  - apply andb_true_iff in E. destruct E as [_ E2]. apply Qlt_bool_iff in E2.
    simpl. exists e. split; [apply in_or_app; right; left; reflexivity|].
    split; [exact E2|]. split; reflexivity.
  - simpl. destruct bm as [m|].
    + destruct Inv as (s & Hin & Hc & Hm & Hs).
      exists s. split; [apply in_or_app; left; exact Hin|]. auto.
    + destruct Inv as [Hbs Hall]. split; [exact Hbs|].
      intros s Hin. apply in_app_or in Hin. destruct Hin as [Hin|[<-|[]]].
      * apply Hall, Hin.
      * unfold clears. intro Hc. subst bs.
        apply andb_false_iff in E. destruct E as [E|E];
          apply Qlt_bool_false_iff in E; lra.
Qed.

Lemma match_fold_inv (required : string) (l seen : list ExtractedSkill)
    (st : option CompetencyMatch * Q) :
  match_inv required seen st ->
  match_inv required (seen ++ l) (fold_left (match_step required) l st).
Proof.
  revert seen st. induction l as [|e l IH]; intros seen st Inv; simpl.
  - rewrite app_nil_r. exact Inv.
  - replace (seen ++ e :: l) with ((seen ++ [e]) ++ l)
      by (rewrite <- app_assoc; reflexivity).
    apply IH, match_step_inv, Inv.
Qed.

(** The entry pushed for a required competency: a gap entry when no
    skill clears the threshold, the entry of a clearing skill otherwise. *)
Lemma match_one_spec (skills : list ExtractedSkill) (required : string) :
  (match_one skills required = gap_entry required /\
   forall s, In s skills -> ~ clears required s)
  \/
  (exists s, In s skills /\ clears required s /\
             match_one skills required = match_entry required s).
Proof.
  pose proof (match_fold_inv required skills [] (None, 0%Q)) as H.
  unfold match_inv at 1 in H. simpl in H.
  specialize (H (conj eq_refl (fun s (F : False) => match F with end))).
  unfold match_one, match_inv in *.
  destruct (fst (fold_left (match_step required) skills (None, 0%Q))) as [m|].
  - right. destruct H as (s & Hin & Hc & Hm & _). exists s. auto.
  - left. destruct H as [_ Hall]. auto.
Qed.

Lemma match_one_competency (skills : list ExtractedSkill) (required : string) :
  competency (match_one skills required) = required.
Proof.
  destruct (match_one_spec skills required) as [[-> _]|(s & _ & _ & ->)]; reflexivity.
Qed.

Lemma match_one_gap_iff (skills : list ExtractedSkill) (required : string) :
  gap (match_one skills required) = true <->
  forall s, In s skills -> ~ clears required s.
Proof.
  destruct (match_one_spec skills required) as [[-> Hall]|(s & Hin & Hc & ->)]; simpl.
  - split; auto.
  - split; [discriminate|]. intro Hall. exfalso. exact (Hall s Hin Hc).
Qed.

Lemma match_one_gap_entry (skills : list ExtractedSkill) (required : string) :
  gap (match_one skills required) = true ->
  match_one skills required = gap_entry required.
Proof.
  destruct (match_one_spec skills required) as [[-> _]|(s & _ & _ & ->)]; simpl;
    [reflexivity|discriminate].
Qed.

Lemma matchCompetencies_perm (skills : list ExtractedSkill) (reqs : list string) :
  Permutation (matchCompetencies skills reqs) (map (match_one skills) reqs).
Proof. apply sort_by_perm. Qed.

Lemma matchCompetencies_in (skills : list ExtractedSkill) (reqs : list string)
    (m : CompetencyMatch) :
  In m (matchCompetencies skills reqs) <->
  exists c, In c reqs /\ m = match_one skills c.
Proof.
  split.
  - intro H. apply (Permutation_in _ (matchCompetencies_perm skills reqs)) in H.
    apply in_map_iff in H. destruct H as (c & <- & Hc). exists c. auto.
  - intros (c & Hc & ->).
    apply (Permutation_in _ (Permutation_sym (matchCompetencies_perm skills reqs))).
    apply in_map. exact Hc.
Qed.

Lemma matchCompetencies_length (skills : list ExtractedSkill) (reqs : list string) :
  List.length (matchCompetencies skills reqs) = List.length reqs.
Proof.
  rewrite (Permutation_length (matchCompetencies_perm skills reqs)).
  apply length_map.
Qed.

Lemma matchCompetencies_names (skills : list ExtractedSkill) (reqs : list string) :
  Permutation (map competency (matchCompetencies skills reqs)) reqs.
Proof.
  rewrite (Permutation_map competency (matchCompetencies_perm skills reqs)).
  rewrite map_map, (map_ext _ (fun c => c) (match_one_competency skills)), map_id.
  reflexivity.
Qed.

Lemma matchCompetencies_sorted (skills : list ExtractedSkill) (reqs : list string) :
  StronglySorted (fun a b => (confidenceScore b <= confidenceScore a)%Q)
                 (matchCompetencies skills reqs).
Proof. apply (sort_by_desc _ confidenceScore). Qed.

Lemma skillGaps_in (skills : list ExtractedSkill) (reqs : list string) (c : string) :
  In c (identifySkillGaps (matchCompetencies skills reqs) reqs) <->
  In c reqs /\ forall s, In s skills -> ~ clears c s.
Proof.
  unfold identifySkillGaps. rewrite in_map_iff. split.
  - intros (m & <- & Hm). apply filter_In in Hm. destruct Hm as [Hin Hg].
    apply matchCompetencies_in in Hin. destruct Hin as (c & Hc & ->).
    rewrite match_one_competency. split; [exact Hc|].
    apply match_one_gap_iff, Hg.
  - intros [Hc Hall]. exists (match_one skills c).
    split; [apply match_one_competency|].
    apply filter_In. split.
    + apply matchCompetencies_in. exists c. auto.
    + apply match_one_gap_iff, Hall.
Qed.

(** ** Facts about the aggregate scores *)

Lemma assessCulturalFit_bounds (text : string) (skills : list ExtractedSkill) :
  (50 <= assessCulturalFit text skills <= 98)%Z.
Proof.
  unfold assessCulturalFit.
  destruct (includes _ "agile" || _ || _);
    destruct (includes _ "collaborate" || _ || _);
    destruct (includes _ "innovation" || _);
    destruct (includes _ "leadership" || _); lia.
Qed.

Lemma match_one_unit (skills : list ExtractedSkill) (required : string) :
  Forall unit_confidence skills -> unit_entry (match_one skills required).
Proof.
  intro Hall.
  destruct (match_one_spec skills required) as [[-> _]|(s & Hin & _ & ->)].
  - reflexivity.
  - unfold unit_entry, match_entry. simpl.
    rewrite Forall_forall in Hall. specialize (Hall s Hin). unfold unit_confidence in Hall.
    pose proof (calculateSimilarity_bounds required (skill s)) as Hs.
    split; [apply Qmult_le_0_compat; tauto|].
    setoid_replace 1%Q with (1 * 1)%Q by reflexivity.
    apply Qmult_le_compat_nonneg; tauto.
Qed.

Lemma matchCompetencies_unit (skills : list ExtractedSkill) (reqs : list string) :
  Forall unit_confidence skills -> Forall unit_entry (matchCompetencies skills reqs).
Proof.
  intro Hall. apply Forall_forall. intros m Hm.
  apply matchCompetencies_in in Hm. destruct Hm as (c & _ & ->).
  apply match_one_unit, Hall.
Qed.

Lemma confidence_sum_bounds (l : list CompetencyMatch) (acc : Q) :
  Forall unit_entry l ->
  (acc <= fold_left (fun sum m => sum + confidenceScore m) l acc
       <= acc + inject_Z (Z.of_nat (matched_count l)))%Q.
Proof.
  intro Hall. revert acc. induction Hall as [|m l Hm _ IH]; intro acc.
  - unfold matched_count. simpl. change (inject_Z 0) with 0%Q. split; lra.
  - cbn [fold_left]. specialize (IH (acc + confidenceScore m)%Q).
    unfold matched_count in *. unfold unit_entry in Hm. cbn [filter].
    destruct (gap m); cbn [negb].
    + rewrite Hm in *. split; lra.
    + cbn [List.length]. rewrite Nat2Z.inj_succ, <- Z.add_1_r, inject_Z_plus.
      change (inject_Z 1) with 1%Q. split; lra.
Qed.

Lemma matched_count_le (l : list CompetencyMatch) : matched_count l <= List.length l.
Proof. apply filter_length_le. Qed.

Lemma calculateOverallFitScore_bounds (l : list CompetencyMatch) :
  Forall unit_entry l ->
  (0 <= calculateOverallFitScore l (List.length l) <= 100)%Z.
Proof.
  intro Hall. unfold calculateOverallFitScore.
  destruct (List.length l =? 0) eqn:E; [lia|].
  apply Nat.eqb_neq in E.
  fold (matched_count l).
  apply Math_round_bounds.
  pose proof (confidence_sum_bounds l 0%Q Hall) as [Hs0 Hs1].
  pose proof (matched_count_le l) as Hm.
  set (S := fold_left _ l 0%Q) in *.
  set (t := inject_Z (Z.of_nat (List.length l))).
  set (m := inject_Z (Z.of_nat (matched_count l))) in *.
  assert (Ht : (0 < t)%Q).
  { subst t. change 0%Q with (inject_Z 0). rewrite <- Zlt_Qlt. lia. }
  assert (Hmt : (m <= t)%Q) by (subst m t; rewrite <- Zle_Qle; lia).
  assert (Hm0 : (0 <= m)%Q).
  { subst m. change 0%Q with (inject_Z 0). rewrite <- Zle_Qle. lia. }
  assert (Ha1 : (m / t <= 1)%Q) by (apply Qle_shift_div_r; [exact Ht|lra]).
  assert (Hb0 : (0 <= S / t)%Q) by (apply Qle_shift_div_l; [exact Ht|lra]).
  assert (Hba : (S / t <= m / t)%Q).
  { unfold Qdiv. apply Qmult_le_compat_r; [lra|].
    apply Qlt_le_weak, Qinv_lt_0_compat, Ht. }
  change (inject_Z 0) with 0%Q. change (inject_Z 100) with 100%Q.
  split; lra.
Qed.


(** ** Facts about blank labels *)

Lemma lower_char_space (c : ascii) : is_space (lower_char c) = is_space c.
Proof. destruct c as [[] [] [] [] [] [] [] []]; reflexivity. Qed.

Lemma all_space_lower (s : string) : all_space (toLowerCase s) = all_space s.
Proof.
  induction s as [|c s IH]; simpl; [reflexivity|].
  rewrite lower_char_space, IH. reflexivity.
Qed.

Lemma trimEnd_empty_iff (s : string) : trimEnd s = "" <-> all_space s = true.
Proof.
  induction s as [|c s IH]; simpl; [tauto|].
  destruct (trimEnd s) as [|d t].
  - destruct (is_space c); simpl.
    + tauto.
    + split; discriminate.
  - split; [discriminate|]. intro H. apply andb_true_iff in H.
    destruct H as [_ H]. apply IH in H. discriminate.
Qed.

Lemma all_space_trimStart (s : string) : all_space (trimStart s) = all_space s.
Proof.
  induction s as [|c s IH]; simpl; [reflexivity|].
  destruct (is_space c) eqn:E; simpl; [exact IH|].
  rewrite E. reflexivity.
Qed.

Lemma normalize_empty_iff (s : string) : normalize s = "" <-> all_space s = true.
Proof.
  unfold normalize, trim.
  rewrite trimEnd_empty_iff, all_space_trimStart, all_space_lower. tauto.
Qed.

(** Against a blank competency every skill scores 1 (blank label) or
    0.85 (any other label). *)
Lemma calculateSimilarity_blank (c x : string) :
  all_space c = true ->
  calculateSimilarity c x = if all_space x then 1%Q else (85 # 100)%Q.
Proof.
  intro Hc. apply normalize_empty_iff in Hc.
  destruct (calculateSimilarity_rules c x) as (R1 & R2 & _).
  destruct (all_space x) eqn:Hx.
  - apply normalize_empty_iff in Hx. apply R1. congruence.
  - apply R2.
    + intro E. rewrite Hc in E. symmetry in E.
      apply normalize_empty_iff in E. congruence.
    + rewrite Hc, includes_empty. apply orb_true_r.
Qed.

Lemma match_fold_constant (c : string) (v : Q) (m : CompetencyMatch)
    (l : list ExtractedSkill) :
  (forall s, In s l -> calculateSimilarity c (skill s) = v) ->
  fold_left (match_step c) l (Some m, v) = (Some m, v).
Proof.
  induction l as [|e l IH]; intro Hall; [reflexivity|].
  cbn [fold_left]. unfold match_step at 2.
  rewrite (Hall e (or_introl eq_refl)).
  replace (Qlt_bool v v) with false
    by (symmetry; apply Qlt_bool_false_iff, Qle_refl).
  cbn [andb]. apply IH. intros s Hs. apply Hall. right. exact Hs.
Qed.

(** With a blank competency and no blank skill label the first skill of
    the list is the one selected. *)
Lemma match_one_blank_first (c : string) (s0 : ExtractedSkill)
    (rest : list ExtractedSkill) :
  all_space c = true ->
  (forall s, In s (s0 :: rest) -> all_space (skill s) = false) ->
  match_one (s0 :: rest) c = match_entry c s0.
Proof.
  intros Hc Hall.
  assert (Hsim : forall s, In s (s0 :: rest) ->
                           calculateSimilarity c (skill s) = (85 # 100)%Q).
  { intros s Hs. rewrite (calculateSimilarity_blank c (skill s) Hc), (Hall s Hs).
    reflexivity. }
  unfold match_one. cbn [fold_left]. unfold match_step at 2.
  rewrite (Hsim s0 (or_introl eq_refl)).
  change (Qlt_bool 0 (85 # 100) && Qlt_bool (5 # 10) (85 # 100)) with true.
  cbv iota.
  rewrite match_fold_constant by (intros s Hs; apply Hsim; right; exact Hs).
  unfold match_entry. cbn [fst]. rewrite (Hsim s0 (or_introl eq_refl)). reflexivity.
Qed.

(** A blank competency is matched as soon as there is a skill at all. *)
Lemma match_one_blank_matched (c : string) (s0 : ExtractedSkill)
    (rest : list ExtractedSkill) :
  all_space c = true -> gap (match_one (s0 :: rest) c) = false.
Proof.
  intro Hc. apply not_true_iff_false. intro Hg.
  pose proof (proj1 (match_one_gap_iff _ _) Hg) as Hall.
  apply (Hall s0 (or_introl eq_refl)).
  unfold clears. rewrite (calculateSimilarity_blank c (skill s0) Hc).
  destruct (all_space (skill s0)); reflexivity.
Qed.

(** ** Facts about the merge of keyword hits *)

Section MapFacts.

Variable V : Type.

Lemma Map_set_keys (k : string) (v : V) (m : list (string * V)) (k' : string) :
  In k' (map fst (Map_set k v m)) <-> k' = k \/ In k' (map fst m).
Proof.
  induction m as [|[k0 v0] m IH]; simpl.
  - intuition.
  - destruct (String.eqb_spec k k0) as [->|Hne]; simpl.
    + intuition.
    + rewrite IH. intuition.
Qed.

Lemma Map_set_NoDup (k : string) (v : V) (m : list (string * V)) :
  NoDup (map fst m) -> NoDup (map fst (Map_set k v m)).
Proof.
  induction m as [|[k0 v0] m IH]; simpl; intro Hnd.
  - constructor; [intros []|constructor].
  - inversion Hnd as [|? ? Hnotin Hnd']; subst.
    destruct (String.eqb_spec k k0) as [->|Hne]; simpl.
    + constructor; assumption.
    + constructor; [|apply IH, Hnd'].
      rewrite Map_set_keys. intros [E|Hin]; [congruence|contradiction].
Qed.

Lemma Map_set_in (k : string) (v : V) (m : list (string * V)) (k' : string) (v' : V) :
  NoDup (map fst m) ->
  (In (k', v') (Map_set k v m) <->
   (k' = k /\ v' = v) \/ (k' <> k /\ In (k', v') m)).
Proof.
  induction m as [|[k0 v0] m IH]; simpl; intro Hnd.
  - split.
    + intros [E|[]]. inversion E. auto.
    + intros [[-> ->]|[_ []]]. auto.
  - inversion Hnd as [|? ? Hnotin Hnd']; subst.
    destruct (String.eqb_spec k k0) as [->|Hne]; simpl.
    + split.
      * intros [E|Hin]; [inversion E; auto|].
        right. split; [|auto]. intros ->. apply Hnotin.
        apply (in_map fst) in Hin. exact Hin.
      * intros [[-> ->]|[Hne [E|Hin]]]; [auto| |auto].
        inversion E. congruence.
    + rewrite (IH Hnd'). split.
      * intros [E|[[-> ->]|[Hk Hin]]]; [inversion E; subst|auto|auto].
        right. split; [congruence|auto].
      * intros [[-> ->]|[Hk [E|Hin]]]; auto.
Qed.

Lemma Map_new_snoc (p : list (string * V)) (kv : string * V) :
  Map_new (p ++ [kv]) = Map_set (fst kv) (snd kv) (Map_new p).
Proof. unfold Map_new. rewrite fold_left_app. reflexivity. Qed.

Lemma Map_new_NoDup (p : list (string * V)) : NoDup (map fst (Map_new p)).
Proof.
  induction p as [|kv p IH] using rev_ind.
  - constructor.
  - rewrite Map_new_snoc. apply Map_set_NoDup, IH.
Qed.

Lemma last_with_key_snoc (p : list (string * V)) (k0 : string) (v0 : V)
    (k : string) (v : V) :
  last_with_key (p ++ [(k0, v0)]) k v <->
  (k = k0 /\ v = v0) \/ (k <> k0 /\ last_with_key p k v).
Proof.
  unfold last_with_key. split.
  - intros (l1 & l2 & E & Hl2).
    destruct l2 as [|x l2] using rev_ind.
    + apply app_inj_tail in E. destruct E as [_ E]. inversion E. auto.
    + clear IHl2. rewrite app_comm_cons, app_assoc in E.
      apply app_inj_tail in E. destruct E as [E Ex]. subst x.
      right. split.
      * intros ->. apply (Hl2 (k0, v0)); [apply in_or_app; right; left|]; reflexivity.
      * exists l1, l2. split; [exact E|].
        intros kv Hin. apply Hl2, in_or_app. left. exact Hin.
  - intros [[-> ->]|[Hne (l1 & l2 & -> & Hl2)]].
    + exists p, []. split; [reflexivity|intros kv []].
    + exists l1, (l2 ++ [(k0, v0)]). split.
      * rewrite <- app_assoc. reflexivity.
      * intros kv Hin. apply in_app_or in Hin. destruct Hin as [Hin|[<-|[]]].
        -- apply Hl2, Hin.
        -- simpl. congruence.
Qed.

(** A [Map] holds, for each key, the value set last. *)
Lemma Map_new_in (p : list (string * V)) (k : string) (v : V) :
  In (k, v) (Map_new p) <-> last_with_key p k v.
Proof.
  induction p as [|[k0 v0] p IH] using rev_ind.
  - simpl. split; [intros []|].
    intros (l1 & l2 & E & _). destruct l1; discriminate.
  - rewrite Map_new_snoc, last_with_key_snoc. simpl.
    rewrite (Map_set_in _ _ _ _ _ (Map_new_NoDup p)), IH. reflexivity.
Qed.

End MapFacts.

Lemma uniqueSkills_in (hits : list ExtractedSkill) (e : ExtractedSkill) :
  In e (uniqueSkills hits) <-> last_hit hits e.
Proof.
  unfold uniqueSkills, Map_values. rewrite in_map_iff. split.
  - intros ([k e'] & E & Hin). simpl in E. subst e'.
    apply Map_new_in in Hin. destruct Hin as (l1 & l2 & E & Hl2).
    apply map_eq_app in E. destruct E as (h1 & h2 & -> & <- & E).
    apply map_eq_cons in E. destruct E as (e0 & h3 & -> & E0 & <-).
    inversion E0; subst. exists h1, h3. split; [reflexivity|].
    intros e' Hin. apply (Hl2 (toLowerCase (skill e'), e')).
    apply (in_map (fun s => (toLowerCase (skill s), s))) in Hin. exact Hin.
  - intros (l1 & l2 & -> & Hl2). exists (label e, e). split; [reflexivity|].
    apply Map_new_in. exists (map (fun s => (toLowerCase (skill s), s)) l1),
      (map (fun s => (toLowerCase (skill s), s)) l2).
    split; [rewrite map_app; reflexivity|].
    intros kv Hin. apply in_map_iff in Hin. destruct Hin as (e' & <- & Hin).
    apply Hl2, Hin.
Qed.

Lemma uniqueSkills_labels (hits : list ExtractedSkill) :
  NoDup (map label (uniqueSkills hits)).
Proof.
  unfold uniqueSkills, Map_values.
  pose proof (Map_new_NoDup _ (map (fun s => (toLowerCase (skill s), s)) hits)) as Hnd.
  assert (Hkeys : forall kv, In kv (Map_new (map (fun s => (toLowerCase (skill s), s)) hits)) ->
                             fst kv = label (snd kv)).
  { intros [k v] Hin. apply Map_new_in in Hin. destruct Hin as (l1 & l2 & E & _).
    apply map_eq_app in E. destruct E as (h1 & h2 & _ & _ & E).
    apply map_eq_cons in E. destruct E as (e0 & h3 & _ & E0 & _).
    inversion E0; subst. reflexivity. }
  rewrite map_map. erewrite map_ext_in; [exact Hnd|].
  intros kv Hin. symmetry. apply Hkeys, Hin.
Qed.

Lemma firstn_In {A : Type} (n : nat) (l : list A) (x : A) :
  In x (firstn n l) -> In x l.
Proof.
  revert l. induction n as [|n IH]; intros [|y l]; simpl; try tauto.
  intros [E|H]; [left; exact E|right; apply IH, H].
Qed.

Lemma StronglySorted_firstn {A : Type} (R : A -> A -> Prop) (n : nat) (l : list A) :
  StronglySorted R l -> StronglySorted R (firstn n l).
Proof.
  intro Hs. revert n.
  induction Hs as [|x l Hs IH Hx]; intro n; destruct n; simpl; try constructor.
  - apply IH.
  - apply Forall_forall. intros y Hy. rewrite Forall_forall in Hx.
    apply Hx. eapply firstn_In, Hy.
Qed.

Lemma rank_skills_sorted (hits : list ExtractedSkill) :
  StronglySorted (fun a b => (confidence b <= confidence a)%Q) (rank_skills hits).
Proof.
  unfold rank_skills. apply StronglySorted_firstn.
  apply (sort_by_desc _ confidence (uniqueSkills hits)).
Qed.

Lemma rank_skills_length (hits : list ExtractedSkill) :
  List.length (rank_skills hits) <= 30.
Proof. unfold rank_skills. apply firstn_le_length. Qed.

Lemma rank_skills_in (hits : list ExtractedSkill) (e : ExtractedSkill) :
  In e (rank_skills hits) -> In e (uniqueSkills hits).
Proof.
  unfold rank_skills. intro H. apply firstn_In in H.
  apply (Permutation_in _ (sort_by_perm _ _ _)) in H. exact H.
Qed.

(** ** Facts about [parseResume] *)

Lemma fold_left_ext_in {A B : Type} (f g : A -> B -> A) (l : list B) (a : A) :
  (forall x, In x l -> forall a', f a' x = g a' x) ->
  fold_left f l a = fold_left g l a.
Proof.
  revert a. induction l as [|x l IH]; intros a H; [reflexivity|].
  simpl. rewrite (H x (or_introl eq_refl)). apply IH.
  intros y Hy. apply H. right. exact Hy.
Qed.

(** A line that is not open-ended is treated alike in every year. *)
Lemma experience_step_year (y1 y2 : Z)
    (st : list ExtractedExperience * option ExtractedExperience) (line : string) :
  open_ended line = false ->
  experience_step y1 st line = experience_step y2 st line.
Proof.
  intro H. unfold experience_step, open_ended in *. destruct st as [experience currentRole].
  destruct (String_match true jobTitle_re line) as [jm|]; [|reflexivity].
  destruct (String_match true duration_re line) as [dm|]; [|reflexivity].
  unfold calculateYearsInRole. rewrite H. reflexivity.
Qed.

Lemma extractExperience_year (y1 y2 : Z) (text : string) :
  reads_clock text = false ->
  extractExperience y1 text = extractExperience y2 text.
Proof.
  intro H. unfold extractExperience, reads_clock in *.
  rewrite (fold_left_ext_in (experience_step y1) (experience_step y2)); [reflexivity|].
  intros line Hin st. apply experience_step_year.
  apply not_true_iff_false. intro Ho.
  apply not_true_iff_false in H. apply H.
  apply existsb_exists. exists line. auto.
Qed.

(** A keyword whose source does not compile stops the scan, whatever
    the text. *)
Lemma scan_keywords_throws (text : string) (conf : Q) (cat : string)
    (before : list string) (kw : string) (rest : list string) (e : error)
    (hits : list ExtractedSkill) :
  (forall k, In k before -> exists re, RegExp_new_gi (keyword_source k) = Ok re) ->
  RegExp_new_gi (keyword_source kw) = Err e ->
  scan_keywords text conf cat (before ++ kw :: rest) hits = Err e.
Proof.
  intros Hok Herr. revert hits.
  induction before as [|k before IH]; intro hits; simpl.
  - unfold keyword_step. fold (keyword_source kw). rewrite Herr. reflexivity.
  - unfold keyword_step at 1. fold (keyword_source k).
    destruct (Hok k (or_introl eq_refl)) as [re ->].
    assert (IH' := IH (fun k' Hk' => Hok k' (or_intror Hk'))).
    destruct (fst (RegExp_test re text)); apply IH'.
Qed.

(** [extractSkills] throws on every text: the source built for the
    keyword "C++" is [\bc++\b]. *)
Lemma extractSkills_throws (text : string) :
  extractSkills text = Err (SyntaxError "Nothing to repeat").
Proof.
  unfold extractSkills, extractSkillsWith.
  change TECHNICAL_KEYWORDS with
    (firstn 6 TECHNICAL_KEYWORDS ++ "C++" :: skipn 7 TECHNICAL_KEYWORDS).
  rewrite (scan_keywords_throws _ _ _ _ _ _ (SyntaxError "Nothing to repeat")).
  - reflexivity.
  - intros k Hk. simpl in Hk.
    repeat (destruct Hk as [<-|Hk]; [eexists; reflexivity|]). destruct Hk.
  - reflexivity.
Qed.

Lemma parseResume_throws (Math_sqrt : Q -> Q) (currentYear : Z)
    (patterns : list (RegExp * EducationLevel)) (text : string) :
  parseResume Math_sqrt currentYear patterns text =
  (Err (SyntaxError "Nothing to repeat"), patterns).
Proof. unfold parseResume. rewrite extractSkills_throws. reflexivity. Qed.

(** ** Facts about skill extraction over vocabularies that compile *)

Lemma Map_set_fresh {V : Type} (k : string) (v : V) (m : list (string * V)) :
  ~ In k (map fst m) -> Map_set k v m = m ++ [(k, v)].
Proof.
  induction m as [|[k0 v0] m IH]; intro H; [reflexivity|]. simpl in *.
  destruct (String.eqb_spec k k0) as [->|Hne]; [tauto|].
  rewrite IH by tauto. reflexivity.
Qed.

Lemma Map_new_distinct {V : Type} (p : list (string * V)) :
  NoDup (map fst p) -> Map_new p = p.
Proof.
  induction p as [|kv p IH] using rev_ind; intro H; [reflexivity|].
  rewrite Map_new_snoc. rewrite map_app in H. simpl in H.
  apply NoDup_remove in H. rewrite app_nil_r in H. destruct H as [Hnd Hnotin].
  rewrite (IH Hnd). destruct kv as [k v]. apply Map_set_fresh. exact Hnotin.
Qed.

(** The steps after the scan, seen on vocabularies that compile. *)
Lemma scan_keywords_hits (text : string) (conf : Q) (cat : string)
    (kws : list string) (hits : list ExtractedSkill) :
  forallb compiles kws = true ->
  scan_keywords text conf cat kws hits
  = Ok (hits ++ map (fun kw => mkSkill kw conf cat) (filter (keyword_hit text) kws)).
Proof.
  revert hits. induction kws as [|kw kws IH]; intros hits H.
  - cbn. rewrite app_nil_r. reflexivity.
  - cbn [forallb] in H. apply andb_true_iff in H. destruct H as [Hk Hrest].
    cbn [scan_keywords filter]. unfold keyword_step, keyword_hit. fold (keyword_source kw).
    unfold compiles in Hk.
    destruct (RegExp_new_gi (keyword_source kw)) as [re|e]; [|discriminate].
    destruct (fst (RegExp_test re text)).
    + rewrite (IH _ Hrest). cbn [map]. rewrite <- app_assoc. reflexivity.
    + apply IH, Hrest.
Qed.

Lemma NoDup_map_filter_app {A B : Type} (f : A -> B) (p1 p2 : A -> bool) (l1 l2 : list A) :
  NoDup (map f (l1 ++ l2)) -> NoDup (map f (filter p1 l1 ++ filter p2 l2)).
Proof.
  assert (Hin : forall y, In y (map f (filter p1 l1 ++ filter p2 l2)) ->
                          In y (map f (l1 ++ l2))).
  { intros y Hy. apply in_map_iff in Hy. destruct Hy as [x [E Hx]].
    apply in_map_iff. exists x. split; [exact E|].
    apply in_app_iff in Hx. apply in_app_iff.
    destruct Hx as [Hx|Hx]; apply filter_In in Hx; tauto. }
  revert Hin. induction l1 as [|a l1 IH]; intros Hin H.
  - cbn [filter app] in *. clear Hin. induction l2 as [|b l2 IH2]; [constructor|].
    cbn [map] in H. apply NoDup_cons_iff in H. destruct H as [Hb H].
    assert (Hin2 : forall y, In y (map f (filter p2 l2)) -> In y (map f l2)).
    { intros y Hy. apply in_map_iff in Hy. destruct Hy as [x [E Hx]].
      apply filter_In in Hx. apply in_map_iff. exists x. tauto. }
    cbn [filter]. destruct (p2 b); cbn [map].
    + constructor; [intro Hy; apply Hb, Hin2, Hy|apply IH2; assumption].
    + apply IH2; assumption.
  - cbn [app map] in H. apply NoDup_cons_iff in H. destruct H as [Ha H].
    assert (Hin1 : forall y, In y (map f (filter p1 l1 ++ filter p2 l2)) ->
                             In y (map f (l1 ++ l2))).
    { intros y Hy. apply in_map_iff in Hy. destruct Hy as [x [E Hx]].
      apply in_map_iff. exists x. split; [exact E|].
      apply in_app_iff in Hx. apply in_app_iff.
      destruct Hx as [Hx|Hx]; apply filter_In in Hx; tauto. }
    cbn [filter]. destruct (p1 a); cbn [app map].
    + constructor; [intro Hy; apply Ha, Hin1, Hy|apply IH; assumption].
    + apply IH; assumption.
Qed.

(** Over vocabularies whose keywords all compile and have pairwise
    different labels, skill extraction returns the first 30 of its hits
    in descending order of confidence, and the merge drops no hit. *)
Lemma extractSkillsWith_distinct (technical soft : list string) (resumeText : string) :
  forallb compiles technical = true ->
  forallb compiles soft = true ->
  NoDup (map toLowerCase (technical ++ soft)) ->
  let hits := keyword_hits technical soft (toLowerCase resumeText) in
  NoDup (map label hits) /\
  uniqueSkills hits = hits /\
  extractSkillsWith technical soft resumeText
  = Ok (firstn 30 (sort_by (desc_cmp confidence) hits)).
Proof.
  intros Ht Hs Hl. unfold extractSkillsWith. cbv zeta.
  generalize (toLowerCase resumeText). intro text.
  assert (Hnd : NoDup (map label (keyword_hits technical soft text))).
  { unfold keyword_hits. rewrite map_app, !map_map. cbn [label skill].
    rewrite <- map_app.
    apply (NoDup_map_filter_app toLowerCase), Hl. }
  assert (Hu : uniqueSkills (keyword_hits technical soft text) = keyword_hits technical soft text).
  { unfold uniqueSkills, Map_values. rewrite Map_new_distinct.
    - rewrite map_map. apply map_id.
    - rewrite map_map. exact Hnd. }
  split; [exact Hnd|]. split; [exact Hu|].
  rewrite (scan_keywords_hits text (9 # 10) "technical" technical [] Ht).
  rewrite (scan_keywords_hits text (75 # 100) "soft" soft _ Hs).
  rewrite app_nil_l. unfold rank_skills. fold (keyword_hits technical soft text).
  rewrite Hu. reflexivity.
Qed.

Lemma without_cpp_compiles :
  forallb compiles (without_cpp TECHNICAL_KEYWORDS) = true /\
  forallb compiles (without_cpp SOFT_KEYWORDS) = true.
Proof. split; vm_compute; reflexivity. Qed.

Lemma without_cpp_labels :
  NoDup (map toLowerCase (without_cpp TECHNICAL_KEYWORDS ++ without_cpp SOFT_KEYWORDS)).
Proof.
  apply (NoDup_count_occ' string_dec). intros x Hx.
  vm_compute in Hx.
  repeat (destruct Hx as [<-|Hx]; [vm_compute; reflexivity|]). destruct Hx.
Qed.

(** * The claims *)

(** ** C1: completeness, order and gaps of the matches *)

(** C1. For all extracted skills, required competencies and resume text,
    [scoreCompetencies] returns one match per required competency (the
    competencies of the matches are a permutation of the required list,
    so the lengths agree), the matches are in descending order of
    [confidenceScore], a competency is in the gaps exactly when it is
    required and no skill scores a similarity above 0.5 against it, and a
    gap entry has an empty matched skill and confidence 0. *)
Theorem C1_matches_complete_sorted_gaps
    (extractedSkills : list ExtractedSkill) (requiredCompetencies : list string)
    (resumeText : string) :
  let r := scoreCompetencies extractedSkills requiredCompetencies resumeText in
  List.length (competencyMatches r) = List.length requiredCompetencies /\
  Permutation (map competency (competencyMatches r)) requiredCompetencies /\
  StronglySorted (fun a b => (confidenceScore b <= confidenceScore a)%Q)
                 (competencyMatches r) /\
  (forall c, In c (skillGaps r) <->
             In c requiredCompetencies /\
             forall s, In s extractedSkills -> ~ clears c s) /\
  (forall m, In m (competencyMatches r) ->
             (gap m = true <->
              forall s, In s extractedSkills -> ~ clears (competency m) s) /\
             (gap m = true -> extractedSkill m = "" /\ confidenceScore m = 0%Q)).
Proof.
  cbv zeta. unfold scoreCompetencies. cbn [competencyMatches skillGaps].
  split; [apply matchCompetencies_length|].
  split; [apply matchCompetencies_names|].
  split; [apply matchCompetencies_sorted|].
  split; [apply skillGaps_in|].
  intros m Hm. apply matchCompetencies_in in Hm. destruct Hm as (c & _ & ->).
  rewrite match_one_competency. split; [apply match_one_gap_iff|].
  intro Hg. rewrite (match_one_gap_entry _ _ Hg). split; reflexivity.
Qed.

(** ** C2: the scores lie in [0,100] *)




(** ** C3: determinism *)

(** By design the years of an open-ended duration are counted up to the
    calendar year of the call. *)
Lemma extractExperience_reads_the_clock :
  extractExperience 2025 open_ended_resume <> extractExperience 2026 open_ended_resume.
Proof. vm_compute. intro H. discriminate H. Qed.

(** C3, at the failing inputs. [parseResume] returns no [ParsedResume]
    to compare: on every text, in every year and on every state of the
    pattern table it throws the SyntaxError of [extractSkills], before
    it reaches the education patterns.  The education stage it would
    run next is not a function of the text: of three successive calls
    of [extractEducation] on "Bachelor of Science in Physics", each on
    the table the call before left, the first returns the Bachelor
    record and leaves the [lastIndex] of the Bachelor pattern at 8, the
    second returns nothing, and the third returns the record again. *)
Theorem C3_parseResume_throws_and_education_keeps_state :
  (forall (Math_sqrt : Q -> Q) (currentYear : Z)
          (patterns : list (RegExp * EducationLevel)) (resumeText : string),
      parseResume Math_sqrt currentYear patterns resumeText
      = (Err (SyntaxError "Nothing to repeat"), patterns)) /\
  (let first := extractEducation EDUCATION_PATTERNS one_degree in
   let second := extractEducation (snd first) one_degree in
   let third := extractEducation (snd second) one_degree in
   fst first =
     [ {| degree := "Bachelor of Science"; field := "Physics"; institution := "Unknown";
          year := None; level := Bachelor |} ] /\
   map (fun p => lastIndex (fst p)) (snd first) = [8; 0; 0; 0; 0] /\
   fst second = [] /\
   fst third = fst first).
Proof.
  split.
  - intros Math_sqrt currentYear patterns resumeText. apply parseResume_throws.
  - vm_compute. repeat split; reflexivity.
Qed.

(** ** C4 and C8: the similarity matcher *)

(** C4. For all strings, [calculateSimilarity] follows the three rules
    in order: 1 when the normalized strings are equal, 0.85 when one
    contains the other, and otherwise 1 minus the Levenshtein distance of
    the normalized strings over the length of the longer one; the value
    lies in [0,1]. *)
Theorem C4_similarity_rules_and_range (a b : string) :
  let s1 := normalize a in
  let s2 := normalize b in
  calculateSimilarity a b =
    (if String.eqb s1 s2 then 1
     else if includes s1 s2 || includes s2 s1 then 85 # 100
     else 1 - inject_Z (Z.of_nat (levenshtein s1 s2))
              / inject_Z (Z.of_nat (Nat.max (String.length s1) (String.length s2))))%Q
  /\ (0 <= calculateSimilarity a b <= 1)%Q.
Proof.
  cbv zeta. split; [|apply calculateSimilarity_bounds].
  destruct (calculateSimilarity_rules a b) as (R1 & R2 & R3). cbv zeta in R3.
  destruct (String.eqb_spec (normalize a) (normalize b)) as [E|NE]; [exact (R1 E)|].
  destruct (includes (normalize a) (normalize b) || includes (normalize b) (normalize a))
    eqn:Hinc; [exact (R2 NE eq_refl)|].
  destruct (R3 NE eq_refl) as [_ ->].
  destruct (Nat.ltb_spec (String.length (normalize b)) (String.length (normalize a))) as [H|H].
  - rewrite (levenshtein_sym (normalize b)), Nat.max_l by lia. reflexivity.
  - rewrite Nat.max_r by lia. reflexivity.
Qed.

(** C8. For all strings [calculateSimilarity a b = calculateSimilarity b a];
    the edit-distance loop itself is symmetric. *)
Theorem C8_similarity_symmetric (a b : string) :
  calculateSimilarity a b = calculateSimilarity b a /\
  getEditDistance a b = getEditDistance b a.
Proof.
  split; [apply calculateSimilarity_sym|].
  rewrite !getEditDistance_levenshtein. apply levenshtein_sym.
Qed.

(** ** C5: scenario 2 *)

(** C5, counterexample. On the text of scenario 2 [parseResume] returns
    no value, and the experience record extracted from the text has no
    responsibility: the text is one line, and the marker "-" is not at
    its start. *)
Lemma C5_scenario2_has_no_responsibility :
  (forall r, fst (parseResume (fun x => x) 2026 EDUCATION_PATTERNS scenario2) <> Ok r) /\
  ~ (exists e, extractExperience 2026 scenario2 = [e] /\
               includes (toLowerCase (jobTitle e)) "engineer" = true /\
               yearsInRole e = 5%Z /\
               responsibilities e = ["Led a team of 5 engineers."]).
Proof.
  split.
  - intro r. rewrite parseResume_throws. discriminate.
  - intros (e & He & _ & _ & Hr). vm_compute in He.
    inversion He; subst e. discriminate Hr.
Qed.

(** C5, amended. In every year, experience extraction applied to the
    text of scenario 2 yields exactly one record; its title is "Software
    Engineer", which contains "engineer", its company "Acme Corp", its
    duration "2015-2020", its [yearsInRole] 5, and its responsibilities
    are empty. *)
Theorem C5_scenario2_experience (currentYear : Z) :
  extractExperience currentYear scenario2 =
    [ {| jobTitle := "Software Engineer"; company := "Acme Corp";
         duration := "2015-2020"; yearsInRole := 5;
         responsibilities := []; exp_skills := [] |} ] /\
  includes (toLowerCase "Software Engineer") "engineer" = true.
Proof.
  split; [|reflexivity].
  rewrite (extractExperience_year currentYear 0 scenario2) by (vm_compute; reflexivity).
  vm_compute. reflexivity.
Qed.

(** ** C6: education extraction *)

(** On a fresh table the level found for a line is that of the first
    pattern, in the order of the table, that matches the line. *)
Lemma first_pattern_fresh (line : string) (patterns : list (RegExp * EducationLevel)) :
  fresh_table patterns ->
  fst (first_pattern line patterns) =
  option_map snd (find (matches_line line) patterns).
Proof.
  induction 1 as [|[regex lvl] patterns [Hg Hl] _ IH]; [reflexivity|].
  simpl in Hg, Hl. cbn [first_pattern find].
  unfold RegExp_test, RegExp_exec, matches_line. cbn [fst]. rewrite Hg, Hl.
  destruct (search_from (re_ignoreCase regex) (re_pattern regex) 0 line).
  - reflexivity.
  - destruct (first_pattern line patterns) as [found rest']. exact IH.
Qed.

(** A line without a degree phrase adds no record. *)
Lemma education_step_needs_phrase
    (st : list ExtractedEducation * list (RegExp * EducationLevel)) (line : string) :
  String_match true degree_re line = None ->
  fst (education_step st line) = fst st.
Proof.
  intro H. unfold education_step. destruct st as [education patterns].
  destruct (first_pattern line patterns) as [[lvl|] patterns']; [|reflexivity].
  rewrite H. reflexivity.
Qed.

(** C6, at the failing inputs. The Bachelor pattern matches the line
    "Bachelor and Master in Arts", yet after a first line that left the
    pattern's [lastIndex] at 16 the record of that line gets the level
    Master; and of two lines that each hold a Bachelor degree phrase the
    second yields no record. *)
Theorem C6_level_priority_lost_to_lastIndex :
  fst (RegExp_test bachelor_re "Bachelor and Master in Arts") = true /\
  fst (extractEducation EDUCATION_PATTERNS two_lines) =
    [ {| degree := "Bachelor and Master"; field := "Arts"; institution := "Unknown";
         year := None; level := Master |} ] /\
  fst (extractEducation EDUCATION_PATTERNS "Bachelor and Master in Arts") =
    [ {| degree := "Bachelor and Master"; field := "Arts"; institution := "Unknown";
         year := None; level := Bachelor |} ] /\
  fst (extractEducation EDUCATION_PATTERNS two_degrees) =
    [ {| degree := "Bachelor of Science"; field := "Physics"; institution := "Unknown";
         year := None; level := Bachelor |} ].
Proof. repeat split; vm_compute; reflexivity. Qed.

(** ** C7: the merge of keyword hits *)

(** C7, at the failing inputs. The pattern source that [extractSkills]
    builds for the keyword "C++" is refused by the RegExp constructor,
    so on every text [extractSkills] throws a SyntaxError while it scans
    the technical keywords: no list of hits is merged, sorted or
    truncated, and no skill list is returned.  The keyword is the only
    obstacle: with "C++" left out of the vocabulary, extraction returns
    for every text the first 30 of its hits in descending order of
    confidence, and since no two hits share a label the merge drops
    none. *)
Theorem C7_extractSkills_throws_before_the_merge (resumeText : string) :
  keyword_source "C++" = "\bc++\b" /\
  RegExp_new_gi (keyword_source "C++") = Err (SyntaxError "Nothing to repeat") /\
  scan_keywords (toLowerCase resumeText) (9 # 10) "technical" TECHNICAL_KEYWORDS []
    = Err (SyntaxError "Nothing to repeat") /\
  extractSkills resumeText = Err (SyntaxError "Nothing to repeat") /\
  (let hits := keyword_hits (without_cpp TECHNICAL_KEYWORDS) (without_cpp SOFT_KEYWORDS)
                 (toLowerCase resumeText) in
   NoDup (map label hits) /\
   uniqueSkills hits = hits /\
   extractSkillsWith (without_cpp TECHNICAL_KEYWORDS) (without_cpp SOFT_KEYWORDS) resumeText
   = Ok (firstn 30 (sort_by (desc_cmp confidence) hits))).
Proof.
  split; [reflexivity|]. split; [reflexivity|]. split; [|split].
  - change TECHNICAL_KEYWORDS with
      (firstn 6 TECHNICAL_KEYWORDS ++ "C++" :: skipn 7 TECHNICAL_KEYWORDS).
    apply scan_keywords_throws; [|reflexivity].
    intros k Hk. simpl in Hk.
    repeat (destruct Hk as [<-|Hk]; [eexists; reflexivity|]). destruct Hk.
  - apply extractSkills_throws.
  - apply extractSkillsWith_distinct.
    + exact (proj1 without_cpp_compiles).
    + exact (proj2 without_cpp_compiles).
    + exact without_cpp_labels.
Qed.

(** ** C9: the range of the cultural fit index *)

(** C9. For every input the [culturalFitIndex] of [scoreCompetencies]
    lies in [50,98]. *)
Theorem C9_culturalFitIndex_50_98
    (extractedSkills : list ExtractedSkill) (requiredCompetencies : list string)
    (resumeText : string) :
  (50 <= culturalFitIndex
           (scoreCompetencies extractedSkills requiredCompetencies resumeText)
      <= 98)%Z.
Proof. apply assessCulturalFit_bounds. Qed.

(** ** C10: a blank required competency *)

(** C10, counterexample. The required competency is empty and the second
    skill has an empty label: that skill scores 1 and is selected, not
    the first skill with 0.85 times its confidence. *)
Lemma C10_blank_skill_label_wins :
  let r := scoreCompetencies
             [mkSkill "Python" (9 # 10) "technical"; mkSkill "" (75 # 100) "soft"]
             [""] "" in
  map extractedSkill (competencyMatches r) = [""] /\
  ~ (exists m, In m (competencyMatches r) /\ extractedSkill m = "Python" /\
               (confidenceScore m == (85 # 100) * (9 # 10))%Q).
Proof.
  cbv zeta. split; [vm_compute; reflexivity|].
  intros (m & Hin & Hs & _). vm_compute in Hin.
  destruct Hin as [<-|[]]. discriminate Hs.
Qed.

(** C10, amended. A required competency that is empty or consists of
    white space is matched, never a gap, as soon as there is an extracted
    skill; when moreover no skill label is itself empty or white space,
    the first skill in list order is selected, with confidence 0.85 times
    the confidence of that skill. *)
Theorem C10_blank_competency_matched
    (s0 : ExtractedSkill) (rest : list ExtractedSkill)
    (requiredCompetencies : list string) (resumeText c : string) :
  In c requiredCompetencies ->
  all_space c = true ->
  let r := scoreCompetencies (s0 :: rest) requiredCompetencies resumeText in
  ~ In c (skillGaps r) /\
  (exists m, In m (competencyMatches r) /\ competency m = c /\ gap m = false) /\
  ((forall s, In s (s0 :: rest) -> all_space (skill s) = false) ->
   In {| competency := c;
         extractedSkill := skill s0;
         confidenceScore := ((85 # 100) * confidence s0)%Q;
         proficiencyLevel := inferProficiencyLevel (skill s0);
         gap := false |}
      (competencyMatches r)).
Proof.
  intros Hc Hblank. cbv zeta. unfold scoreCompetencies.
  cbn [competencyMatches skillGaps].
  pose proof (match_one_blank_matched c s0 rest Hblank) as Hg.
  split; [|split].
  - intro Hin. apply skillGaps_in in Hin. destruct Hin as [_ Hall].
    apply match_one_gap_iff in Hall. congruence.
  - exists (match_one (s0 :: rest) c). split; [|split].
    + apply matchCompetencies_in. exists c. auto.
    + apply match_one_competency.
    + exact Hg.
  - intro Hall. apply matchCompetencies_in. exists c. split; [exact Hc|].
    rewrite (match_one_blank_first c s0 rest Hblank Hall).
    unfold match_entry.
    rewrite (calculateSimilarity_blank c (skill s0) Hblank),
            (Hall s0 (or_introl eq_refl)).
    reflexivity.
Qed.

Lemma C10_blank_competency_matched_witness :
  let r := scoreCompetencies [mkSkill "Python" (9 # 10) "technical"] ["Go"; "  "] "" in
  ~ In "  " (skillGaps r) /\
  (exists m, In m (competencyMatches r) /\ competency m = "  " /\ gap m = false) /\
  ((forall s, In s [mkSkill "Python" (9 # 10) "technical"] -> all_space (skill s) = false) ->
   In {| competency := "  ";
         extractedSkill := "Python";
         confidenceScore := ((85 # 100) * (9 # 10))%Q;
         proficiencyLevel := inferProficiencyLevel "Python";
         gap := false |}
      (competencyMatches r)).
Proof.
  apply (C10_blank_competency_matched (mkSkill "Python" (9 # 10) "technical") []
           ["Go"; "  "] "" "  ").
  - right. left. reflexivity.
  - reflexivity.
Defined.

(** * Further properties of the code *)

(** ** The edit distance *)

Lemma get_beyond (s : string) (k : nat) : String.length s <= k -> String.get k s = None.
Proof.
  revert k. induction s as [|c s IH]; intros k Hk; [destruct k; reflexivity|].
  destruct k as [|k]; simpl in *; [lia|]. apply IH. lia.
Qed.

Lemma opt_ascii_eqb_refl (a : option ascii) : opt_ascii_eqb a a = true.
Proof. destruct a; simpl; [apply Ascii.eqb_refl|reflexivity]. Qed.

Lemma opt_ascii_eqb_eq (a b : option ascii) : opt_ascii_eqb a b = true -> a = b.
Proof.
  destruct a, b; simpl; try discriminate; try reflexivity.
  intro H. apply Ascii.eqb_eq in H. congruence.
Qed.

Lemma lev_diag_refl (s : string) (i : nat) : lev s s i i = 0.
Proof.
  induction i as [|i IH]; [reflexivity|].
  rewrite lev_S_S, opt_ascii_eqb_refl. exact IH.
Qed.

Lemma lev_ge_diff (s1 s2 : string) (i j : nat) :
  i - j <= lev s1 s2 i j /\ j - i <= lev s1 s2 i j.
Proof.
  revert j. induction i as [|i IHi]; intro j.
  - rewrite lev_0_l. lia.
  - induction j as [|j IHj].
    + rewrite lev_0_r. lia.
    + rewrite lev_S_S. pose proof (IHi j). pose proof (IHi (S j)).
      destruct (opt_ascii_eqb _ _); lia.
Qed.

Lemma lev_zero_chars (s1 s2 : string) (i : nat) :
  lev s1 s2 i i = 0 -> forall k, k < i -> charAt s1 k = charAt s2 k.
Proof.
  induction i as [|i IH]; intros H k Hk; [lia|].
  rewrite lev_S_S in H.
  destruct (opt_ascii_eqb (charAt s1 i) (charAt s2 i)) eqn:E; [|lia].
  destruct (Nat.eq_dec k i) as [->|Hne].
  - apply opt_ascii_eqb_eq, E.
  - apply IH; [exact H|lia].
Qed.

Lemma levenshtein_zero (s1 s2 : string) : levenshtein s1 s2 = 0 -> s1 = s2.
Proof.
  unfold levenshtein. intro H.
  pose proof (lev_ge_diff s1 s2 (String.length s1) (String.length s2)) as [Ha Hb].
  assert (El : String.length s1 = String.length s2) by lia.
  rewrite <- El in H.
  apply String.get_correct. intro k.
  destruct (Nat.lt_ge_cases k (String.length s1)) as [Hk|Hk].
  - apply (lev_zero_chars s1 s2 _ H k Hk).
  - rewrite !get_beyond by lia. reflexivity.
Qed.

(** X1. [getEditDistance] behaves as a distance: it is the length of
    the other string against the empty string, 0 exactly between equal
    strings, and it lies between the difference of the lengths and the
    longer length. *)
Theorem X1_getEditDistance_is_a_distance (s1 s2 : string) :
  getEditDistance s1 "" = String.length s1 /\
  getEditDistance "" s2 = String.length s2 /\
  (getEditDistance s1 s2 = 0 <-> s1 = s2) /\
  String.length s1 - String.length s2 <= getEditDistance s1 s2 /\
  String.length s2 - String.length s1 <= getEditDistance s1 s2 /\
  getEditDistance s1 s2 <= Nat.max (String.length s1) (String.length s2).
Proof.
  rewrite !getEditDistance_levenshtein. unfold levenshtein at 1 2.
  split; [apply lev_0_r|]. split; [apply lev_0_l|].
  split; [split|].
  - apply levenshtein_zero.
  - intros ->. apply lev_diag_refl.
  - pose proof (lev_ge_diff s1 s2 (String.length s1) (String.length s2)) as [Ha Hb].
    pose proof (levenshtein_le_max s1 s2). unfold levenshtein in *. lia.
Qed.

(** ** The similarity *)

Lemma lower_char_idem (c : ascii) : lower_char (lower_char c) = lower_char c.
Proof. destruct c as [[] [] [] [] [] [] [] []]; reflexivity. Qed.

Lemma toLowerCase_idem (s : string) : toLowerCase (toLowerCase s) = toLowerCase s.
Proof.
  induction s as [|c s IH]; simpl; [reflexivity|].
  rewrite lower_char_idem, IH. reflexivity.
Qed.

Lemma toLowerCase_trimStart (s : string) :
  toLowerCase (trimStart s) = trimStart (toLowerCase s).
Proof.
  induction s as [|c s IH]; simpl; [reflexivity|].
  rewrite lower_char_space. destruct (is_space c); [exact IH|reflexivity].
Qed.

Lemma toLowerCase_trimEnd (s : string) :
  toLowerCase (trimEnd s) = trimEnd (toLowerCase s).
Proof.
  induction s as [|c s IH]; simpl; [reflexivity|].
  rewrite <- IH, lower_char_space.
  destruct (trimEnd s) as [|d t]; simpl.
  - destruct (is_space c); reflexivity.
  - reflexivity.
Qed.

Lemma trimEnd_idem (s : string) : trimEnd (trimEnd s) = trimEnd s.
Proof.
  induction s as [|c s IH]; simpl; [reflexivity|].
  destruct (trimEnd s) as [|d t] eqn:E.
  - destruct (is_space c) eqn:Ec; simpl; [reflexivity|]. rewrite Ec. reflexivity.
  - cbn [trimEnd] in *. rewrite IH. reflexivity.
Qed.

Lemma trimStart_clean (s : string) : starts_clean (trimStart s) = true.
Proof.
  induction s as [|c s IH]; simpl; [reflexivity|].
  destruct (is_space c) eqn:E; [exact IH|]. simpl. rewrite E. reflexivity.
Qed.

Lemma trimEnd_clean (s : string) : starts_clean s = true -> starts_clean (trimEnd s) = true.
Proof.
  destruct s as [|c s]; [reflexivity|]. cbn [starts_clean trimEnd]. intro H.
  destruct (trimEnd s); [|exact H].
  destruct (is_space c) eqn:E; [discriminate H|].
  simpl. rewrite E. reflexivity.
Qed.

Lemma trimStart_of_clean (s : string) : starts_clean s = true -> trimStart s = s.
Proof.
  destruct s as [|c s]; simpl; [reflexivity|]. intro H.
  apply negb_true_iff in H. rewrite H. reflexivity.
Qed.

Lemma trim_idem (s : string) : trim (trim s) = trim s.
Proof.
  unfold trim.
  rewrite (trimStart_of_clean (trimEnd (trimStart s)))
    by (apply trimEnd_clean, trimStart_clean).
  apply trimEnd_idem.
Qed.

Lemma toLowerCase_trim (s : string) : toLowerCase (trim s) = trim (toLowerCase s).
Proof. unfold trim. rewrite toLowerCase_trimEnd, toLowerCase_trimStart. reflexivity. Qed.

Lemma normalize_idem (s : string) : normalize (normalize s) = normalize s.
Proof.
  unfold normalize. rewrite toLowerCase_trim, toLowerCase_idem. apply trim_idem.
Qed.

Lemma calculateSimilarity_normalize (a a' b b' : string) :
  normalize a = normalize a' -> normalize b = normalize b' ->
  calculateSimilarity a b = calculateSimilarity a' b'.
Proof.
  intros Ha Hb. unfold calculateSimilarity.
  fold (normalize a) (normalize b) (normalize a') (normalize b').
  rewrite Ha, Hb. reflexivity.
Qed.

(** X2. The similarity ignores letter case and surrounding white space
    in both arguments. *)
Theorem X2_similarity_ignores_case_and_padding (a b : string) :
  calculateSimilarity (toLowerCase a) b = calculateSimilarity a b /\
  calculateSimilarity (trim a) b = calculateSimilarity a b /\
  calculateSimilarity a (toLowerCase b) = calculateSimilarity a b /\
  calculateSimilarity a (trim b) = calculateSimilarity a b.
Proof.
  assert (Hl : forall s, normalize (toLowerCase s) = normalize s)
    by (intro s; unfold normalize; rewrite toLowerCase_idem; reflexivity).
  assert (Ht : forall s, normalize (trim s) = normalize s)
    by (intro s; unfold normalize; rewrite toLowerCase_trim; apply trim_idem).
  repeat split; apply calculateSimilarity_normalize; auto.
Qed.

(** X3. The similarity is 1 only for strings that are equal after
    normalization: two strings that differ after lower-casing and
    trimming score strictly less than 1. *)
Theorem X3_similarity_one_iff_equal (a b : string) :
  (calculateSimilarity a b == 1)%Q <-> normalize a = normalize b.
Proof.
  destruct (calculateSimilarity_rules a b) as (R1 & R2 & R3). cbv zeta in R3.
  split.
  - intro H. destruct (string_dec (normalize a) (normalize b)) as [E|NE]; [exact E|].
    exfalso.
    destruct (includes (normalize a) (normalize b) || includes (normalize b) (normalize a))
      eqn:Hinc.
    + rewrite (R2 NE eq_refl) in H. discriminate H.
    + destruct (R3 NE eq_refl) as [Hlen E]. rewrite E in H. clear E.
      set (longer := if _ <? _ then normalize a else normalize b) in *.
      set (shorter := if _ <? _ then normalize b else normalize a) in *.
      assert (Hd : levenshtein shorter longer <> 0).
      { intro H0. apply levenshtein_zero in H0. apply NE.
        subst shorter longer.
        destruct (String.length (normalize b) <? String.length (normalize a)); congruence. }
      assert (Hq : (0 < inject_Z (Z.of_nat (levenshtein shorter longer))
                       / inject_Z (Z.of_nat (String.length longer)))%Q).
      { apply Qlt_shift_div_l.
        - change 0%Q with (inject_Z 0). rewrite <- Zlt_Qlt. lia.
        - rewrite Qmult_0_l. change 0%Q with (inject_Z 0). rewrite <- Zlt_Qlt. lia. }
      lra.
  - intro E. rewrite (R1 E). reflexivity.
Qed.

(** ** The choice of the best skill *)

(** What the inner loop of [matchCompetencies] has chosen after the
    skills [seen]: nothing, when none clears the threshold, or the first
    skill of the highest similarity. *)
Lemma match_step_best (required : string) (seen : list ExtractedSkill)
    (st : option CompetencyMatch * Q) (e : ExtractedSkill) :
  (match fst st with
   | None => snd st = 0%Q /\ forall s, In s seen -> ~ clears required s
   | Some m =>
       exists l1 s l2, seen = l1 ++ s :: l2 /\ m = match_entry required s /\
         snd st = sim required s /\ clears required s /\
         (forall s', In s' l1 -> (sim required s' < sim required s)%Q) /\
         (forall s', In s' l2 -> (sim required s' <= sim required s)%Q)
   end) ->
  match fst (match_step required st e) with
  | None => snd (match_step required st e) = 0%Q /\
            forall s, In s (seen ++ [e]) -> ~ clears required s
  | Some m =>
      exists l1 s l2, seen ++ [e] = l1 ++ s :: l2 /\ m = match_entry required s /\
        snd (match_step required st e) = sim required s /\ clears required s /\
        (forall s', In s' l1 -> (sim required s' < sim required s)%Q) /\
        (forall s', In s' l2 -> (sim required s' <= sim required s)%Q)
  end.
Proof.
  destruct st as [bm bs]. unfold match_step, clears, sim. cbn [fst snd].
  intro Inv.
  destruct (Qlt_bool bs (calculateSimilarity required (skill e))
            && Qlt_bool (5 # 10) (calculateSimilarity required (skill e))) eqn:E;
    cbn [fst snd].
  - apply andb_true_iff in E. destruct E as [E1 E2].
    apply Qlt_bool_iff in E1. apply Qlt_bool_iff in E2.
    exists seen, e, []. repeat split; auto; [|intros s' []].
    intros s' Hs'. destruct bm as [m|].
    + destruct Inv as (l1 & s & l2 & -> & _ & Hbs & _ & Hl1 & Hl2). subst bs.
      apply in_app_or in Hs'. destruct Hs' as [H|[<-|H]].
      * specialize (Hl1 s' H). lra.
      * lra.
      * specialize (Hl2 s' H). lra.
    + destruct Inv as [_ Hall]. specialize (Hall s' Hs').
      apply Qnot_lt_le in Hall. lra.
  - assert (Hno : (calculateSimilarity required (skill e) <= bs)%Q \/
                  (calculateSimilarity required (skill e) <= 5 # 10)%Q).
    { apply andb_false_iff in E. destruct E as [E|E];
        apply Qlt_bool_false_iff in E; auto. }
    destruct bm as [m|].
    + destruct Inv as (l1 & s & l2 & -> & Hm & Hbs & Hc & Hl1 & Hl2).
      exists l1, s, (l2 ++ [e]). rewrite <- app_assoc. repeat split; auto.
      intros s' Hs'. apply in_app_or in Hs'. destruct Hs' as [H|[<-|[]]].
      * apply Hl2, H.
      * subst bs. unfold clears in Hc. destruct Hno; lra.
    + destruct Inv as [Hbs Hall]. split; [exact Hbs|].
      intros s Hs. apply in_app_or in Hs. destruct Hs as [H|[<-|[]]].
      * apply Hall, H.
      * intro Hc. subst bs. destruct Hno; lra.
Qed.

(** X4. For a required competency some skill clears, the entry pushed
    is that of the first skill, in list order, among those of the highest
    similarity: every earlier skill scores strictly less, no later one
    scores more. *)
Theorem X4_best_match_is_first_maximum
    (extractedSkills : list ExtractedSkill) (required : string) :
  gap (match_one extractedSkills required) = false ->
  exists l1 s l2,
    extractedSkills = l1 ++ s :: l2 /\
    match_one extractedSkills required = match_entry required s /\
    clears required s /\
    (forall s', In s' l1 -> (sim required s' < sim required s)%Q) /\
    (forall s', In s' l2 -> (sim required s' <= sim required s)%Q).
Proof.
  intro Hg. unfold match_one in *.
  assert (Inv : forall l seen st,
             (match fst st with
              | None => snd st = 0%Q /\ forall s, In s seen -> ~ clears required s
              | Some m =>
                  exists l1 s l2, seen = l1 ++ s :: l2 /\ m = match_entry required s /\
                    snd st = sim required s /\ clears required s /\
                    (forall s', In s' l1 -> (sim required s' < sim required s)%Q) /\
                    (forall s', In s' l2 -> (sim required s' <= sim required s)%Q)
              end) ->
             match fst (fold_left (match_step required) l st) with
             | None => True
             | Some m =>
                 exists l1 s l2, seen ++ l = l1 ++ s :: l2 /\ m = match_entry required s /\
                   clears required s /\
                   (forall s', In s' l1 -> (sim required s' < sim required s)%Q) /\
                   (forall s', In s' l2 -> (sim required s' <= sim required s)%Q)
             end).
  { induction l as [|e l IH]; intros seen st H.
    - simpl. rewrite app_nil_r. destruct (fst st); [|exact I].
      destruct H as (l1 & s & l2 & ? & ? & ? & ? & ? & ?). exists l1, s, l2. auto.
    - cbn [fold_left].
      replace (seen ++ e :: l) with ((seen ++ [e]) ++ l)
        by (rewrite <- app_assoc; reflexivity).
      apply IH, match_step_best, H. }
  specialize (Inv extractedSkills [] (None, 0%Q)
                (conj eq_refl (fun s (F : False) => match F with end))).
  destruct (fst (fold_left (match_step required) extractedSkills (None, 0%Q))) as [m|].
  - destruct Inv as (l1 & s & l2 & E & Hm & Hc & H1 & H2).
    exists l1, s, l2. auto.
  - discriminate Hg.
Qed.

Lemma X4_best_match_is_first_maximum_witness :
  exists l1 s l2,
    [mkSkill "Java" (9 # 10) "technical"; mkSkill "JavaScript" (9 # 10) "technical";
     mkSkill "javascript" (3 # 4) "technical"] = l1 ++ s :: l2 /\
    match_one [mkSkill "Java" (9 # 10) "technical"; mkSkill "JavaScript" (9 # 10) "technical";
               mkSkill "javascript" (3 # 4) "technical"] "JavaScript"
      = match_entry "JavaScript" s /\
    clears "JavaScript" s /\
    (forall s', In s' l1 -> (sim "JavaScript" s' < sim "JavaScript" s)%Q) /\
    (forall s', In s' l2 -> (sim "JavaScript" s' <= sim "JavaScript" s)%Q).
Proof.
  apply (X4_best_match_is_first_maximum
           [mkSkill "Java" (9 # 10) "technical"; mkSkill "JavaScript" (9 # 10) "technical";
            mkSkill "javascript" (3 # 4) "technical"] "JavaScript").
  vm_compute. reflexivity.
Defined.

(** ** Edge cases of [scoreCompetencies] *)

Lemma Math_round_upper (x : Q) (hi : Z) :
  (x + (1 # 2) < inject_Z (hi + 1))%Q -> (Math_round x <= hi)%Z.
Proof.
  intro H. unfold Math_round.
  pose proof (Qfloor_le (x + (1 # 2))) as Hf.
  assert (Hlt : (inject_Z (Qfloor (x + (1 # 2))) < inject_Z (hi + 1))%Q) by lra.
  rewrite <- Zlt_Qlt in Hlt. lia.
Qed.

Lemma Math_round_lower (x : Q) (lo : Z) :
  (inject_Z lo <= x)%Q -> (lo <= Math_round x)%Z.
Proof.
  intro H. unfold Math_round. rewrite <- (Qfloor_Z lo).
  apply Qfloor_resp_le. lra.
Qed.

(** X5. With no required competency the result is neutral whatever the
    skills and the text: no match, no gap, no strength, [overallFitScore]
    50, the recommendation "Not Recommended - Skill Gap Too Large", and
    a [rankingScore] between 60 and 74. *)
Theorem X5_no_required_competency
    (extractedSkills : list ExtractedSkill) (resumeText : string) :
  let r := scoreCompetencies extractedSkills [] resumeText in
  competencyMatches r = [] /\ skillGaps r = [] /\ strengths r = [] /\
  overallFitScore r = 50%Z /\
  recommendations r = "Not Recommended - Skill Gap Too Large" /\
  (60 <= rankingScore r <= 74)%Z.
Proof.
  cbv zeta. do 5 (split; [reflexivity|]).
  unfold scoreCompetencies. cbn [rankingScore].
  change (matchCompetencies extractedSkills []) with (@nil CompetencyMatch).
  cbn [identifySkillGaps filter map List.length calculateOverallFitScore Nat.eqb].
  pose proof (assessCulturalFit_bounds resumeText extractedSkills) as [Hlo Hhi].
  rewrite Zle_Qle in Hlo, Hhi.
  change (inject_Z 50) with 50%Q in *. change (inject_Z 98) with 98%Q in *.
  unfold calculateRankingScore. change (inject_Z 50) with 50%Q.
  assert (Hg : (Qmax 0 ((1 - inject_Z (Z.of_nat 0) * (15 # 100)) * 100) == 100)%Q)
    by reflexivity.
  set (g := Qmax 0 ((1 - inject_Z (Z.of_nat 0) * (15 # 100)) * 100)) in *.
  split.
  - apply Math_round_lower. change (inject_Z 60) with 60%Q. lra.
  - apply Math_round_upper. change (inject_Z (74 + 1)) with 75%Q. lra.
Qed.

Lemma sort_by_sorted {A : Type} (key : A -> Q) (l : list A) :
  StronglySorted (desc key) l -> sort_by (desc_cmp key) l = l.
Proof.
  induction 1 as [|x l Hs IH Hx]; [reflexivity|].
  cbn [sort_by fold_right]. fold (sort_by (desc_cmp key) l). rewrite IH.
  destruct l as [|y l']; [reflexivity|]. cbn [insert_by].
  inversion Hx as [|? ? Hxy _]; subst. unfold desc in Hxy.
  replace (Qle_bool (desc_cmp key x y) 0) with true; [reflexivity|].
  symmetry. apply Qle_bool_iff. unfold desc_cmp. lra.
Qed.

Lemma overall_all_gaps (l : list CompetencyMatch) :
  Forall (fun m => gap m = true /\ confidenceScore m = 0%Q) l ->
  l <> [] ->
  calculateOverallFitScore l (List.length l) = 0%Z.
Proof.
  intros Hall Hne.
  assert (Hunit : Forall unit_entry l).
  { eapply Forall_impl; [|exact Hall]. intros m [Hg Hc]. unfold unit_entry.
    rewrite Hg. exact Hc. }
  assert (Hcount : matched_count l = 0).
  { unfold matched_count. clear Hne Hunit.
    induction Hall as [|m l [Hg _] _ IH]; [reflexivity|].
    cbn [filter]. rewrite Hg. exact IH. }
  unfold calculateOverallFitScore.
  destruct (List.length l =? 0) eqn:E.
  - apply Nat.eqb_eq in E. destruct l; [congruence|discriminate].
  - apply Nat.eqb_neq in E. fold (matched_count l). rewrite Hcount.
    pose proof (confidence_sum_bounds l 0%Q Hunit) as [Hs0 Hs1].
    rewrite Hcount in Hs1. change (inject_Z (Z.of_nat 0)) with 0%Q in *.
    set (S := fold_left _ l 0%Q) in *.
    set (t := inject_Z (Z.of_nat (List.length l))).
    assert (Ht : (0 < t)%Q).
    { subst t. change 0%Q with (inject_Z 0). rewrite <- Zlt_Qlt. lia. }
    assert (HS : (S == 0)%Q) by lra.
    assert (Hz : (0 / t == 0)%Q) by (unfold Qdiv; apply Qmult_0_l).
    assert (HSt : (S / t == 0)%Q) by (rewrite HS; exact Hz).
    cut ((0 <= Math_round (0 / t * 100 * (6 # 10) + S / t * 100 * (4 # 10)) <= 0)%Z); [lia|].
    apply Math_round_bounds. change (inject_Z 0) with 0%Q. split; lra.
Qed.

(** X6. When no extracted skill clears the threshold for any required
    competency (no skill at all, for one), the matches are the gap
    entries of the required competencies in their order, the gaps are
    the required list itself, there is no strength, and
    [overallFitScore] is 0, or 50 for an empty required list. *)
Theorem X6_nothing_matches
    (extractedSkills : list ExtractedSkill) (requiredCompetencies : list string)
    (resumeText : string) :
  (forall c s, In c requiredCompetencies -> In s extractedSkills -> ~ clears c s) ->
  let r := scoreCompetencies extractedSkills requiredCompetencies resumeText in
  competencyMatches r = map gap_entry requiredCompetencies /\
  skillGaps r = requiredCompetencies /\
  strengths r = [] /\
  overallFitScore r = match requiredCompetencies with [] => 50%Z | _ => 0%Z end.
Proof.
  intro Hno. cbv zeta. unfold scoreCompetencies.
  cbn [competencyMatches skillGaps strengths overallFitScore].
  assert (Hm : matchCompetencies extractedSkills requiredCompetencies
               = map gap_entry requiredCompetencies).
  { unfold matchCompetencies.
    rewrite (map_ext_in (match_one extractedSkills) gap_entry).
    - apply (sort_by_sorted confidenceScore).
      clear Hno. induction requiredCompetencies as [|c l IH]; simpl; constructor.
      + exact IH.
      + apply Forall_forall. intros m Hin. apply in_map_iff in Hin.
        destruct Hin as (c' & <- & _). unfold desc. simpl. apply Qle_refl.
    - intros c Hc. apply match_one_gap_entry, match_one_gap_iff.
      intros s Hs. apply Hno; assumption. }
  rewrite Hm. clear Hm Hno.
  split; [reflexivity|]. split; [|split].
  - unfold identifySkillGaps.
    induction requiredCompetencies as [|c l IH]; simpl; [reflexivity|]. rewrite IH. reflexivity.
  - unfold identifyStrengths.
    replace (filter _ (map gap_entry requiredCompetencies)) with (@nil CompetencyMatch);
      [reflexivity|].
    induction requiredCompetencies as [|c l IH]; simpl; [reflexivity|exact IH].
  - destruct requiredCompetencies as [|c l]; [reflexivity|].
    rewrite <- (length_map gap_entry (c :: l)). apply overall_all_gaps.
    + apply Forall_forall. intros m Hin. apply in_map_iff in Hin.
      destruct Hin as (c' & <- & _). split; reflexivity.
    + discriminate.
Qed.

Lemma X6_nothing_matches_witness :
  let r := scoreCompetencies [mkSkill "Docker" (9 # 10) "technical"] ["Kubernetes"; "Go"] "" in
  competencyMatches r = map gap_entry ["Kubernetes"; "Go"] /\
  skillGaps r = ["Kubernetes"; "Go"] /\
  strengths r = [] /\
  overallFitScore r = 0%Z.
Proof.
  apply (X6_nothing_matches [mkSkill "Docker" (9 # 10) "technical"] ["Kubernetes"; "Go"] "").
  intros c s [<-|[<-|[]]] [<-|[]]; unfold clears, Qlt; vm_compute; discriminate.
Defined.

Lemma filter_length_mono {A : Type} (p q : A -> bool) (l : list A) :
  (forall x, p x = true -> q x = true) ->
  List.length (filter p l) <= List.length (filter q l).
Proof.
  intro H. induction l as [|x l IH]; simpl; [lia|].
  destruct (p x) eqn:E.
  - rewrite (H x E). simpl. lia.
  - destruct (q x); simpl; lia.
Qed.

Lemma filter_split_length {A : Type} (p : A -> bool) (l : list A) :
  List.length (filter p l) + List.length (filter (fun x => negb (p x)) l) = List.length l.
Proof.
  induction l as [|x l IH]; simpl; [reflexivity|].
  destruct (p x); simpl; lia.
Qed.

(** X7. The strengths of a result are at most 5, each is the text
    "skill (level)" of a match that is no gap and has a confidence above
    0.7, and strengths and gaps together never outnumber the required
    competencies. *)
Theorem X7_strengths_come_from_confident_matches
    (extractedSkills : list ExtractedSkill) (requiredCompetencies : list string)
    (resumeText : string) :
  let r := scoreCompetencies extractedSkills requiredCompetencies resumeText in
  List.length (strengths r) <= 5 /\
  List.length (strengths r) + List.length (skillGaps r)
    <= List.length requiredCompetencies /\
  (forall t, In t (strengths r) ->
     exists m, In m (competencyMatches r) /\ gap m = false /\
               (7 # 10 < confidenceScore m)%Q /\ t = strength_text m).
Proof.
  cbv zeta. unfold scoreCompetencies. cbn [strengths skillGaps competencyMatches].
  set (l := matchCompetencies extractedSkills requiredCompetencies).
  unfold identifyStrengths, identifySkillGaps. rewrite !length_map.
  split; [apply firstn_le_length|]. split.
  - rewrite <- (matchCompetencies_length extractedSkills requiredCompetencies). fold l.
    rewrite <- (filter_split_length gap l).
    pose proof (firstn_le_length 5
      (filter (fun m => negb (gap m) && Qlt_bool (7 # 10) (confidenceScore m)) l)).
    pose proof (filter_length_mono
      (fun m => negb (gap m) && Qlt_bool (7 # 10) (confidenceScore m))
      (fun m => negb (gap m)) l) as Hmono.
    rewrite length_firstn. specialize (Hmono ltac:(intros x Hx; apply andb_true_iff in Hx; tauto)).
    lia.
  - intros t Ht. apply in_map_iff in Ht. destruct Ht as (m & <- & Hm).
    apply firstn_In, filter_In in Hm. destruct Hm as [Hin Hp].
    apply andb_true_iff in Hp. destruct Hp as [Hg Hc].
    exists m. split; [exact Hin|]. split; [apply negb_true_iff, Hg|].
    split; [apply Qlt_bool_iff, Hc|reflexivity].
Qed.

(** X8. With every skill confidence in [0,1] the [rankingScore] lies
    between 15 and 99: the cultural part is never below 15, and the
    three parts never add up to 100. *)
Theorem X8_rankingScore_between_15_and_99
    (extractedSkills : list ExtractedSkill) (requiredCompetencies : list string)
    (resumeText : string) :
  Forall unit_confidence extractedSkills ->
  (15 <= rankingScore (scoreCompetencies extractedSkills requiredCompetencies resumeText)
      <= 99)%Z.
Proof.
  intro Hall. unfold scoreCompetencies. cbn [rankingScore].
  pose proof (assessCulturalFit_bounds resumeText extractedSkills) as [Hc0 Hc1].
  assert (Ho : (0 <= calculateOverallFitScore
                       (matchCompetencies extractedSkills requiredCompetencies)
                       (List.length requiredCompetencies) <= 100)%Z).
  { rewrite <- (matchCompetencies_length extractedSkills requiredCompetencies).
    apply calculateOverallFitScore_bounds, matchCompetencies_unit, Hall. }
  destruct Ho as [Ho0 Ho1].
  set (o := calculateOverallFitScore _ _) in *.
  set (c := assessCulturalFit resumeText extractedSkills) in *.
  set (g := List.length _).
  unfold calculateRankingScore.
  rewrite Zle_Qle in Ho0, Ho1, Hc0, Hc1.
  change (inject_Z 0) with 0%Q in *. change (inject_Z 100) with 100%Q in *.
  change (inject_Z 50) with 50%Q in *. change (inject_Z 98) with 98%Q in *.
  assert (Hg : (0 <= inject_Z (Z.of_nat g))%Q).
  { change 0%Q with (inject_Z 0). rewrite <- Zle_Qle. lia. }
  pose proof (Qmax_bounds ((1 - inject_Z (Z.of_nat g) * (15 # 100)) * 100) 0 100)
    as [Hx0 Hx1]; [lra|lra|].
  split.
  - apply Math_round_lower. change (inject_Z 15) with 15%Q. lra.
  - apply Math_round_upper. change (inject_Z (99 + 1)) with 100%Q. lra.
Qed.

Lemma X8_rankingScore_between_15_and_99_witness :
  (15 <= rankingScore (scoreCompetencies [mkSkill "Python" 1 "technical"] ["Python"]
                         "agile teamwork innovation leadership")
      <= 99)%Z.
Proof.
  apply (X8_rankingScore_between_15_and_99 [mkSkill "Python" 1 "technical"] ["Python"]
           "agile teamwork innovation leadership").
  constructor; [|constructor]. unfold unit_confidence, Qle. simpl. lia.
Defined.

(** ** Ranking and narrative *)

Section SortStable.

Variable A : Type.
Variable key : A -> Q.
Variable p : A -> bool.
Hypothesis p_one_key : forall x y, p x = true -> p y = true -> (key x == key y)%Q.

(** Insertion does not reorder the elements that share a key. *)
Lemma insert_by_filter (x : A) (l : list A) :
  filter p (insert_by (desc_cmp key) x l) = filter p (x :: l).
Proof.
  induction l as [|y l IH]; [reflexivity|]. cbn [insert_by].
  destruct (Qle_bool (desc_cmp key x y) 0) eqn:E; [reflexivity|].
  assert (Hlt : (key x < key y)%Q).
  { apply Qnot_le_lt. intro Hle. rewrite <- not_true_iff_false, Qle_bool_iff in E.
    apply E. unfold desc_cmp. lra. }
  cbn [filter] in *. rewrite IH.
  destruct (p x) eqn:Hx, (p y) eqn:Hy; try reflexivity.
  exfalso. pose proof (p_one_key x y Hx Hy). lra.
Qed.

Lemma sort_by_filter (l : list A) :
  filter p (sort_by (desc_cmp key) l) = filter p l.
Proof.
  induction l as [|x l IH]; [reflexivity|].
  cbn [sort_by fold_right]. fold (sort_by (desc_cmp key) l).
  rewrite insert_by_filter. cbn [filter]. rewrite IH. reflexivity.
Qed.

End SortStable.

Lemma map_index_rank (start : nat) (l : list Candidate) :
  map rank (map_index (fun candidate index =>
                         {| ranked_id := id candidate; rank := index + 1;
                            ranked_scoringResult := scoringResult candidate |}) start l)
  = seq (start + 1) (List.length l).
Proof.
  revert start. induction l as [|c l IH]; intro start; [reflexivity|].
  cbn [map_index map List.length seq rank]. rewrite (IH (S start)). reflexivity.
Qed.

Lemma map_index_unranked (start : nat) (l : list Candidate) :
  map unranked (map_index (fun candidate index =>
                             {| ranked_id := id candidate; rank := index + 1;
                                ranked_scoringResult := scoringResult candidate |}) start l)
  = l.
Proof.
  revert start. induction l as [|c l IH]; intro start; [reflexivity|].
  cbn [map_index map]. rewrite (IH (S start)). destruct c. reflexivity.
Qed.

Lemma StronglySorted_weaken {A : Type} (R R' : A -> A -> Prop) (l : list A) :
  (forall a b, R a b -> R' a b) -> StronglySorted R l -> StronglySorted R' l.
Proof.
  intros H. induction 1 as [|x l Hs IH Hx]; constructor; [exact IH|].
  eapply Forall_impl; [|exact Hx]. intros b. apply H.
Qed.

(** X9. [rankCandidates] returns every candidate once, numbered 1, 2,
    ... in the order returned; the ranking scores do not increase along
    the ranks, and candidates of equal ranking score keep the order they
    came in. *)
Theorem X9_rankCandidates_orders_and_numbers (candidates : list Candidate) :
  let ranked := rankCandidates candidates in
  map rank ranked = seq 1 (List.length candidates) /\
  Permutation (map unranked ranked) candidates /\
  StronglySorted (fun a b => (rankingScore (scoringResult b)
                              <= rankingScore (scoringResult a))%Z)
                 (map unranked ranked) /\
  (forall v : Z,
      filter (fun c => (rankingScore (scoringResult c) =? v)%Z) (map unranked ranked)
      = filter (fun c => (rankingScore (scoringResult c) =? v)%Z) candidates).
Proof.
  cbv zeta. unfold rankCandidates.
  rewrite map_index_rank, map_index_unranked.
  change by_rankingScore_desc with (desc_cmp candidate_score).
  split; [|split; [|split]].
  - rewrite (Permutation_length (sort_by_perm _ _ candidates)). reflexivity.
  - apply sort_by_perm.
  - apply (StronglySorted_weaken (desc candidate_score)); [|apply sort_by_desc].
    intros a b H. unfold desc, candidate_score in H. rewrite Zle_Qle. exact H.
  - intro v. apply sort_by_filter. intros x y Hx Hy.
    apply Z.eqb_eq in Hx. apply Z.eqb_eq in Hy.
    unfold candidate_score. rewrite Hx, Hy. reflexivity.
Qed.

(** X10. The narrative of the cultural fit index of a scoring result is
    never "Low"; it is "High" exactly for an index of 75 or more. *)
Theorem X10_computed_narrative_never_low
    (extractedSkills : list ExtractedSkill) (requiredCompetencies : list string)
    (resumeText : string) :
  let index := culturalFitIndex
                 (scoreCompetencies extractedSkills requiredCompetencies resumeText) in
  generateCulturalFitNarrative (inject_Z index) <> Low /\
  (generateCulturalFitNarrative (inject_Z index) = High <-> (75 <= index)%Z).
Proof.
  cbv zeta.
  pose proof (assessCulturalFit_bounds resumeText extractedSkills) as Hb.
  unfold scoreCompetencies. cbn [culturalFitIndex].
  set (c := assessCulturalFit resumeText extractedSkills) in *.
  unfold generateCulturalFitNarrative.
  destruct (Qle_bool 75 (inject_Z c)) eqn:E75.
  - split; [discriminate|]. split; [|reflexivity].
    intros _. apply Qle_bool_iff in E75. change 75%Q with (inject_Z 75) in E75.
    rewrite <- Zle_Qle in E75. exact E75.
  - assert (E50 : Qle_bool 50 (inject_Z c) = true).
    { apply Qle_bool_iff. change 50%Q with (inject_Z 50). rewrite <- Zle_Qle. lia. }
    rewrite E50. split; [discriminate|]. split; [discriminate|].
    intro H. exfalso. rewrite <- not_true_iff_false, Qle_bool_iff in E75. apply E75.
    change 75%Q with (inject_Z 75). rewrite <- Zle_Qle. exact H.
Qed.

Lemma Qmin_mono_l (x y z : Q) : (x <= y)%Q -> (Qmin x z <= Qmin y z)%Q.
Proof.
  intro H. unfold Qmin.
  destruct (Qle_bool x z) eqn:E1, (Qle_bool y z) eqn:E2;
    try apply Qle_bool_iff in E1; try apply Qle_bool_iff in E2;
    try (rewrite <- not_true_iff_false, Qle_bool_iff in E1);
    try (rewrite <- not_true_iff_false, Qle_bool_iff in E2);
    try lra.
Qed.

Lemma Qle_bool_mono (t f f' : Q) :
  (f <= f')%Q -> Qle_bool t f = true -> Qle_bool t f' = true.
Proof. intros H Ht. apply Qle_bool_iff in Ht. apply Qle_bool_iff. lra. Qed.

Lemma prediction_of_mono (f f' : Q) :
  (f <= f')%Q -> prediction_level (prediction_of f) <= prediction_level (prediction_of f').
Proof.
  intro H. unfold prediction_of.
  pose proof (Qle_bool_mono 85 f f' H) as M85.
  pose proof (Qle_bool_mono 70 f f' H) as M70.
  pose proof (Qle_bool_mono 50 f f' H) as M50.
  destruct (Qle_bool 85 f), (Qle_bool 85 f'), (Qle_bool 70 f), (Qle_bool 70 f'),
           (Qle_bool 50 f), (Qle_bool 50 f'); simpl; try lia;
    try (specialize (M85 eq_refl); discriminate);
    try (specialize (M70 eq_refl); discriminate);
    try (specialize (M50 eq_refl); discriminate).
Qed.

Lemma prediction_level_inj (a b : SuccessPrediction) :
  prediction_level a = prediction_level b -> a = b.
Proof. destruct a, b; simpl; intro H; try reflexivity; discriminate. Qed.

(** X11. The success prediction never gets worse when the overall fit,
    the cultural fit or the years of experience grow, and experience
    beyond five years adds nothing. *)
Theorem X11_success_prediction_monotone (o c y o' c' y' : Q) :
  (o <= o')%Q -> (c <= c')%Q -> (y <= y')%Q ->
  prediction_level (generateSuccessPrediction o c y)
    <= prediction_level (generateSuccessPrediction o' c' y') /\
  ((5 <= y)%Q -> generateSuccessPrediction o c y' = generateSuccessPrediction o c y).
Proof.
  intros Ho Hc Hy.
  change (generateSuccessPrediction o c y) with (prediction_of (final_score o c y)).
  change (generateSuccessPrediction o' c' y') with (prediction_of (final_score o' c' y')).
  change (generateSuccessPrediction o c y') with (prediction_of (final_score o c y')).
  assert (Hm : forall a b, (a <= b)%Q -> (Qmin (a / 5) 1 <= Qmin (b / 5) 1)%Q).
  { intros a b Hab. apply Qmin_mono_l. unfold Qdiv.
    apply Qmult_le_compat_r; [exact Hab|discriminate]. }
  split.
  - apply prediction_of_mono. unfold final_score.
    pose proof (Hm y y' Hy). lra.
  - intro H5. apply prediction_level_inj, Nat.le_antisymm;
      apply prediction_of_mono; unfold final_score.
    + assert (E : (Qmin (y' / 5) 1 <= 1)%Q).
      { unfold Qmin. destruct (Qle_bool (y' / 5) 1) eqn:E; [apply Qle_bool_iff, E|lra]. }
      assert (E' : (1 <= Qmin (y / 5) 1)%Q).
      { unfold Qmin. destruct (Qle_bool (y / 5) 1) eqn:E0; [|lra].
        apply Qle_shift_div_l; [reflexivity|lra]. }
      lra.
    + pose proof (Hm y y' Hy). lra.
Qed.

Lemma X11_success_prediction_monotone_witness :
  prediction_level (generateSuccessPrediction 60 50 6)
    <= prediction_level (generateSuccessPrediction 80 78 9) /\
  ((5 <= 6)%Q -> generateSuccessPrediction 60 50 9 = generateSuccessPrediction 60 50 6).
Proof.
  apply (X11_success_prediction_monotone 60 50 6 80 78 9);
    unfold Qle; simpl; lia.
Defined.

(** ** Skill extraction *)

(** A vocabulary of keywords that all compile is scanned to the end. *)
Lemma scan_keywords_returns (text : string) (conf : Q) (cat : string)
    (kws : list string) (hits : list ExtractedSkill) :
  forallb compiles kws = true ->
  exists r, scan_keywords text conf cat kws hits = Ok r.
Proof.
  revert hits. induction kws as [|kw kws IH]; intros hits H.
  - exists hits. reflexivity.
  - cbn [forallb] in H. apply andb_true_iff in H. destruct H as [Hk Hrest].
    cbn [scan_keywords]. unfold keyword_step. fold (keyword_source kw).
    unfold compiles in Hk.
    destruct (RegExp_new_gi (keyword_source kw)) as [re|e]; [|discriminate].
    destruct (fst (RegExp_test re text)); apply IH, Hrest.
Qed.

(** X12. [extractSkills] throws a SyntaxError on every text, because
    the pattern source built for the keyword "C++" has a quantifier with
    nothing to repeat; so [parseResume] throws the same error on every
    text and leaves the education patterns as they were.  The keyword
    "C++" is the only cause: over the vocabularies without it skill
    extraction returns a list for every text. *)
Theorem X12_parseResume_always_throws
    (Math_sqrt : Q -> Q) (currentYear : Z)
    (patterns : list (RegExp * EducationLevel)) (resumeText : string) :
  extractSkills resumeText = Err (SyntaxError "Nothing to repeat") /\
  parseResume Math_sqrt currentYear patterns resumeText
    = (Err (SyntaxError "Nothing to repeat"), patterns) /\
  exists found,
    extractSkillsWith (without_cpp TECHNICAL_KEYWORDS) (without_cpp SOFT_KEYWORDS) resumeText
    = Ok found.
Proof.
  split; [apply extractSkills_throws|]. split; [apply parseResume_throws|].
  unfold extractSkillsWith.
  destruct (scan_keywords_returns (toLowerCase resumeText) (9 # 10) "technical"
              (without_cpp TECHNICAL_KEYWORDS) []) as [h1 ->]; [vm_compute; reflexivity|].
  destruct (scan_keywords_returns (toLowerCase resumeText) (75 # 100) "soft"
              (without_cpp SOFT_KEYWORDS) h1) as [h2 ->]; [vm_compute; reflexivity|].
  eexists. reflexivity.
Qed.

(** X13. The merge leaves a list of hits with pairwise different labels
    (compared without case) as it is, order included; the labels of the
    shipped vocabularies are pairwise different. *)
Theorem X13_merge_keeps_distinct_hits (hits : list ExtractedSkill) :
  NoDup (map label hits) ->
  uniqueSkills hits = hits /\
  NoDup (map toLowerCase (TECHNICAL_KEYWORDS ++ SOFT_KEYWORDS)).
Proof.
  intro H. split.
  - unfold uniqueSkills, Map_values.
    rewrite Map_new_distinct.
    + rewrite map_map. apply map_id.
    + rewrite map_map. exact H.
  - apply (NoDup_count_occ' string_dec). intros x Hx.
    vm_compute in Hx.
    repeat (destruct Hx as [<-|Hx]; [vm_compute; reflexivity|]). destruct Hx.
Qed.

Lemma X13_merge_keeps_distinct_hits_witness :
  uniqueSkills [mkSkill "React" (9 # 10) "technical"; mkSkill "Teamwork" (75 # 100) "soft"]
    = [mkSkill "React" (9 # 10) "technical"; mkSkill "Teamwork" (75 # 100) "soft"] /\
  NoDup (map toLowerCase (TECHNICAL_KEYWORDS ++ SOFT_KEYWORDS)).
Proof.
  apply (X13_merge_keeps_distinct_hits
           [mkSkill "React" (9 # 10) "technical"; mkSkill "Teamwork" (75 # 100) "soft"]).
  simpl. constructor; [|constructor; [|constructor]].
  - intros [H|[]]. discriminate H.
  - intros [].
Defined.

(** ** Experience extraction *)

Lemma calculateYearsInRole_positive (currentYear : Z) (line : string)
    (durationMatch : option rmatch_result) :
  (1 <= calculateYearsInRole currentYear line durationMatch)%Z.
Proof. unfold calculateYearsInRole. destruct durationMatch; lia. Qed.

Lemma responsibility_count_app (l1 l2 : list ExtractedExperience) :
  responsibility_count (l1 ++ l2) = responsibility_count l1 + responsibility_count l2.
Proof.
  induction l1 as [|e l1 IH]; simpl; [reflexivity|]. rewrite IH. lia.
Qed.

(** What one line does to the roles held by the loop of
    [extractExperience]: a title line adds a role, a bullet line adds at
    most one responsibility, and every role keeps at least one year. *)
Lemma experience_step_roles (currentYear : Z)
    (st : list ExtractedExperience * option ExtractedExperience) (line : string) :
  let st' := experience_step currentYear st line in
  List.length (roles st') = List.length (roles st) + (if has_title line then 1 else 0) /\
  responsibility_count (roles st')
    <= responsibility_count (roles st) + (if has_bullet line then 1 else 0) /\
  (Forall (fun e => (1 <= yearsInRole e)%Z) (roles st) ->
   Forall (fun e => (1 <= yearsInRole e)%Z) (roles st')).
Proof.
  cbv zeta. destruct st as [experience currentRole].
  unfold experience_step, has_title, has_bullet, roles.
  pose proof (calculateYearsInRole_positive currentYear line
                (String_match true duration_re line)) as Hy.
  destruct (String_match true jobTitle_re line) as [jm|];
    destruct currentRole as [role|];
    destruct (String_match false bullet_re line) as [bm|];
    cbn [fst snd];
    rewrite ?length_app, ?responsibility_count_app, ?app_nil_r;
    cbn [List.length responsibility_count fold_right push_responsibility responsibilities];
    rewrite ?length_app; cbn [List.length];
    (split; [lia|]; split; [lia|]);
    rewrite ?Forall_app; intro H;
    repeat match goal with
           | H : _ /\ _ |- _ => destruct H
           | |- _ /\ _ => split
           | H : Forall _ [_] |- _ => inversion H; subst; clear H
           | |- Forall _ [_] => constructor; [|constructor]
           | |- Forall _ [] => constructor
           end; cbn [yearsInRole push_responsibility]; try assumption; try lia.
Qed.

Lemma experience_fold_roles (currentYear : Z) (lines : list string)
    (st : list ExtractedExperience * option ExtractedExperience) :
  let st' := fold_left (experience_step currentYear) lines st in
  List.length (roles st') = List.length (roles st) + List.length (filter has_title lines) /\
  responsibility_count (roles st')
    <= responsibility_count (roles st) + List.length (filter has_bullet lines) /\
  (Forall (fun e => (1 <= yearsInRole e)%Z) (roles st) ->
   Forall (fun e => (1 <= yearsInRole e)%Z) (roles st')).
Proof.
  cbv zeta. revert st. induction lines as [|line lines IH]; intro st.
  - simpl. split; [lia|]. split; [lia|auto].
  - cbn [fold_left filter].
    destruct (IH (experience_step currentYear st line)) as (A1 & A2 & A3).
    destruct (experience_step_roles currentYear st line) as (B1 & B2 & B3).
    split; [|split].
    + rewrite A1, B1. destruct (has_title line); simpl; lia.
    + destruct (has_bullet line); simpl in *; lia.
    + auto.
Qed.

Lemma extractExperience_roles (currentYear : Z) (text : string) :
  extractExperience currentYear text =
  roles (fold_left (experience_step currentYear) (split_lines text) ([], None)).
Proof.
  unfold extractExperience, roles.
  destruct (fold_left _ _ _) as [experience [role|]]; cbn [fst snd];
    [reflexivity|rewrite app_nil_r; reflexivity].
Qed.

Lemma extractExperience_years_positive (currentYear : Z) (text : string) :
  Forall (fun e => (1 <= yearsInRole e)%Z) (extractExperience currentYear text).
Proof.
  rewrite extractExperience_roles.
  destruct (experience_fold_roles currentYear (split_lines text) ([], None))
    as (_ & _ & A3).
  apply A3. constructor.
Qed.

(** X14. For every text and year [extractExperience] returns one record
    per line that holds a job title, so none for a text without such a
    line; every record has a [yearsInRole] of at least 1. *)
Theorem X14_one_record_per_title_line (currentYear : Z) (resumeText : string) :
  List.length (extractExperience currentYear resumeText)
    = List.length (filter has_title (split_lines resumeText)) /\
  Forall (fun e => (1 <= yearsInRole e)%Z) (extractExperience currentYear resumeText).
Proof.
  rewrite extractExperience_roles.
  destruct (experience_fold_roles currentYear (split_lines resumeText) ([], None))
    as (A1 & _ & A3).
  split; [exact A1|]. apply A3. constructor.
Qed.

(** X15. The responsibilities of all the records together are at most
    as many as the lines that begin with a bullet marker. *)
Theorem X15_responsibilities_come_from_bullet_lines
    (currentYear : Z) (resumeText : string) :
  responsibility_count (extractExperience currentYear resumeText)
    <= List.length (filter has_bullet (split_lines resumeText)).
Proof.
  rewrite extractExperience_roles.
  destruct (experience_fold_roles currentYear (split_lines resumeText) ([], None))
    as (_ & A2 & _).
  exact A2.
Qed.

Lemma years_sum_from (l : list ExtractedExperience) (acc : Z) :
  fold_left (fun total exp => (total + yearsInRole exp)%Z) l acc
  = (acc + years_sum l)%Z.
Proof.
  unfold years_sum. revert acc. induction l as [|e l IH]; intro acc; simpl; [lia|].
  rewrite (IH (acc + yearsInRole e)%Z), (IH (yearsInRole e)). lia.
Qed.

Lemma years_sum_at_least_length (l : list ExtractedExperience) :
  Forall (fun e => (1 <= yearsInRole e)%Z) l ->
  (Z.of_nat (List.length l) <= years_sum l)%Z.
Proof.
  induction 1 as [|e l He _ IH]; [reflexivity|].
  unfold years_sum. cbn [fold_left List.length]. rewrite years_sum_from. lia.
Qed.

(** X16. [calculateYearsExperience] is exactly the sum of the
    [yearsInRole] of the records: rounding to one decimal changes
    nothing.  For the records of [extractExperience] the total is at
    least the number of records. *)
Theorem X16_total_years_is_the_sum
    (experience : list ExtractedExperience) (currentYear : Z) (resumeText : string) :
  (calculateYearsExperience experience == inject_Z (years_sum experience))%Q /\
  (inject_Z (Z.of_nat (List.length (extractExperience currentYear resumeText)))
   <= calculateYearsExperience (extractExperience currentYear resumeText))%Q.
Proof.
  assert (Hsum : forall l, (calculateYearsExperience l == inject_Z (years_sum l))%Q).
  { intro l. unfold calculateYearsExperience. fold (years_sum l).
    assert (E : Math_round (inject_Z (years_sum l) * 10) = (years_sum l * 10)%Z).
    { apply Z.le_antisymm.
      - apply Math_round_upper. rewrite !inject_Z_plus, inject_Z_mult.
        change (inject_Z 10) with 10%Q. change (inject_Z 1) with 1%Q. lra.
      - apply Math_round_lower. rewrite inject_Z_mult.
        change (inject_Z 10) with 10%Q. lra. }
    rewrite E, inject_Z_mult. change (inject_Z 10) with 10%Q. field. }
  split; [apply Hsum|].
  rewrite Hsum, <- Zle_Qle. apply years_sum_at_least_length.
  apply extractExperience_years_positive.
Qed.

(** ** Education extraction *)

Lemma RegExp_test_keeps_pattern (re : RegExp) (line : string) :
  re_pattern (snd (RegExp_test re line)) = re_pattern re /\
  re_ignoreCase (snd (RegExp_test re line)) = re_ignoreCase re /\
  re_global (snd (RegExp_test re line)) = re_global re.
Proof.
  unfold RegExp_test, RegExp_exec.
  destruct (re_global re) eqn:G.
  - destruct (search_from _ _ _ _); simpl; auto.
  - simpl. auto.
Qed.




(** X18. On a pattern table as the module has it when loaded, a text of
    one line gets a record exactly when some pattern matches the line and
    the line holds a degree phrase; the level of the record is that of
    the first pattern of the table that matches. *)
Theorem X18_first_line_gets_first_matching_level
    (patterns : list (RegExp * EducationLevel)) (resumeText : string) :
  fresh_table patterns ->
  split_lines resumeText = [resumeText] ->
  map level (fst (extractEducation patterns resumeText)) =
  match find (matches_line resumeText) patterns with
  | Some p => if has_degree_phrase resumeText then [snd p] else []
  | None => []
  end.
Proof.
  intros Hfresh Hone. unfold extractEducation. rewrite Hone. cbn [fold_left].
  unfold education_step, has_degree_phrase.
  pose proof (first_pattern_fresh resumeText patterns Hfresh) as Hfirst.
  destruct (first_pattern resumeText patterns) as [found patterns']. cbn [fst] in Hfirst.
  subst found.
  destruct (find (matches_line resumeText) patterns) as [p|]; cbn [option_map].
  - destruct (String_match true degree_re resumeText); reflexivity.
  - reflexivity.
Qed.

Lemma X18_first_line_gets_first_matching_level_witness :
  map level (fst (extractEducation EDUCATION_PATTERNS "Master of Science in Physics")) =
  match find (matches_line "Master of Science in Physics") EDUCATION_PATTERNS with
  | Some p => if has_degree_phrase "Master of Science in Physics" then [snd p] else []
  | None => []
  end.
Proof.
  apply (X18_first_line_gets_first_matching_level EDUCATION_PATTERNS
           "Master of Science in Physics").
  - unfold fresh_table, EDUCATION_PATTERNS. repeat constructor.
  - reflexivity.
Defined.

(** ** Completeness score and embedding *)

(** X19. The extraction score lies between 0.5 and 1, and it is 1
    exactly when more than five skills, some education and some
    experience were found. *)
Theorem X19_extraction_score_range
    (skills : list ExtractedSkill) (education : list ExtractedEducation)
    (experience : list ExtractedExperience) :
  (5 # 10 <= calculateExtractionScore skills education experience <= 1)%Q /\
  ((calculateExtractionScore skills education experience == 1)%Q <->
   5 < List.length skills /\ education <> [] /\ experience <> []).
Proof.
  unfold calculateExtractionScore.
  assert (He : (0 <? List.length education) = true <-> education <> [])
    by (destruct education; cbn; split; intro H;
        try discriminate; try reflexivity; exfalso; apply H; reflexivity).
  assert (Hx : (0 <? List.length experience) = true <-> experience <> [])
    by (destruct experience; cbn; split; intro H;
        try discriminate; try reflexivity; exfalso; apply H; reflexivity).
  rewrite <- He, <- Hx, <- Nat.ltb_lt.
  destruct (5 <? List.length skills), (0 <? List.length education),
           (0 <? List.length experience);
    (split; [split; (vm_compute; discriminate)|]);
    (split; [intro H; try (vm_compute in H; discriminate H); auto
            |intros (A & B & C); try discriminate; reflexivity]).
Qed.

Lemma add_at_length (index : nat) (v : Q) (embedding : list Q) :
  index < List.length embedding ->
  List.length (add_at index v embedding) = List.length embedding.
Proof.
  intro H. unfold add_at. rewrite length_app, length_firstn. cbn [List.length].
  rewrite length_skipn. lia.
Qed.

(** X20. The embedding has 768 entries for every text and every square
    root function, and every word hash is a 32-bit signed integer. *)
Theorem X20_embedding_has_768_entries (Math_sqrt : Q -> Q) (text word : string) :
  List.length (generateSimpleEmbeddings Math_sqrt text) = 768 /\
  (- 2 ^ 31 <= hash_word word < 2 ^ 31)%Z.
Proof.
  split.
  - unfold generateSimpleEmbeddings.
    set (words := String_match_all false word_re (toLowerCase text)).
    set (v := (1 / inject_Z (Z.of_nat (List.length words)))%Q).
    assert (H : forall ws emb, List.length emb = 768 ->
               List.length
                 (fold_left (fun embedding w =>
                               add_at (Z.to_nat (Z.abs (hash_word w) mod 768)) v embedding)
                            ws emb) = 768).
    { induction ws as [|w ws IH]; intros emb He; [exact He|].
      cbn [fold_left]. apply IH. rewrite add_at_length; [exact He|].
      rewrite He. pose proof (Z.mod_pos_bound (Z.abs (hash_word w)) 768). lia. }
    specialize (H words (repeat 0%Q 768) (repeat_length _ _)).
    destruct (Qlt_bool 0 _); [rewrite length_map|]; exact H.
  - unfold hash_word.
    assert (H : forall l h, (- 2 ^ 31 <= h < 2 ^ 31)%Z ->
               (- 2 ^ 31 <= fold_left hash_step l h < 2 ^ 31)%Z).
    { induction l as [|c l IH]; intros h Hh; [exact Hh|].
      cbn [fold_left]. apply IH. unfold hash_step, to_int32.
      pose proof (Z.mod_pos_bound (to_int32 (h * 32) - h + Z.of_nat (code c) + 2 ^ 31)
                    (2 ^ 32)) as Hm.
      unfold to_int32 in Hm. lia. }
    apply H. lia.
Qed.

(** ** Resume fit and framework mapping *)

Lemma matched_fold_le (resumeSkillsLower : list string) (requiredSkills : list string)
    (acc : nat) :
  fold_left (fun matched skill =>
               if skill_matched resumeSkillsLower skill then matched + 1 else matched)
            requiredSkills acc
  <= acc + List.length requiredSkills.
Proof.
  revert acc. induction requiredSkills as [|k l IH]; intro acc; simpl; [lia|].
  destruct (skill_matched resumeSkillsLower k).
  - specialize (IH (acc + 1)). lia.
  - specialize (IH acc). lia.
Qed.

Lemma Qmin_bounds (x lo hi : Q) :
  (lo <= hi)%Q -> (lo <= x)%Q -> (lo <= Qmin hi x <= hi)%Q.
Proof.
  intros Hlh Hx. unfold Qmin. destruct (Qle_bool hi x) eqn:E.
  - split; [exact Hlh|apply Qle_refl].
  - split; [exact Hx|].
    rewrite <- not_true_iff_false, Qle_bool_iff in E. apply Qnot_le_lt in E. lra.
Qed.

(** X21. For a resume with a non-negative total of years and a required
    number of years that is not negative, the match score of
    [scoreResumeFit] lies between 12 and 100, and the count of matched
    skills never exceeds the count of required ones; with no requirement
    at all (no skill, no education, no years) the match score is 75
    whatever the resume holds. *)
Theorem X21_scoreResumeFit_range
    (parsedResume : ParsedResume) (requiredSkills : list string)
    (requiredEducation : option string) (yearsRequired : option Q) :
  (0 <= totalYearsExperience parsedResume)%Q ->
  (forall y, yearsRequired = Some y -> (0 <= y)%Q) ->
  let fit := scoreResumeFit parsedResume requiredSkills requiredEducation yearsRequired in
  (12 <= matchScore fit <= 100)%Z /\
  matchedSkills (details fit) <= totalRequired (details fit) /\
  matchScore (scoreResumeFit parsedResume [] None None) = 75%Z.
Proof.
  intros Ht Hy. cbv zeta. unfold scoreResumeFit.
  cbn [matchScore details matchedSkills totalRequired].
  set (lower := map (fun s => toLowerCase (skill s)) (skills parsedResume)).
  pose proof (matched_fold_le lower requiredSkills 0) as Hm. simpl in Hm.
  set (matched := fold_left _ requiredSkills 0) in *.
  split; [|split; [exact Hm|vm_compute; reflexivity]].
  set (total := List.length requiredSkills) in *.
  assert (Hs : (0 <= (if 0 <? total
                      then inject_Z (Z.of_nat matched) / inject_Z (Z.of_nat total) * 100
                      else 50) <= 100)%Q).
  { destruct (Nat.ltb_spec 0 total) as [Hpos|Hz]; [|split; discriminate].
    assert (Hd : (0 <= Z.of_nat matched <= Z.of_nat total)%Z) by lia.
    assert (Hn : (0 < Z.of_nat total)%Z) by lia.
    destruct (Qdiv_unit_interval _ _ Hd Hn) as [H0 H1]. split; lra. }
  assert (He : (40 <= (if truthy_string requiredEducation
                       then (if 0 <? List.length (education parsedResume) then 80 else 40)
                       else 100) <= 100)%Q).
  { destruct (truthy_string requiredEducation);
      [destruct (0 <? List.length (education parsedResume))|]; split; discriminate. }
  assert (Hx : (0 <= (if truthy_number yearsRequired
                      then Qmin 100 (totalYearsExperience parsedResume
                                     / match yearsRequired with Some y => y | None => 0 end
                                     * 100)
                      else 100) <= 100)%Q).
  { destruct yearsRequired as [y|]; cbn [truthy_number]; [|split; discriminate].
    destruct (Qeq_bool y 0) eqn:E; cbn [negb]; [split; discriminate|].
    apply Qmin_bounds; [discriminate|].
    assert (Hpos : (0 < y)%Q).
    { specialize (Hy y eq_refl). apply Qeq_bool_neq in E.
      destruct (Qlt_le_dec 0 y) as [H|H]; [exact H|].
      exfalso. apply E. lra. }
    assert (Hq : (0 <= totalYearsExperience parsedResume / y)%Q).
    { apply Qle_shift_div_l; [exact Hpos|lra]. }
    lra. }
  split.
  - apply Math_round_lower. change (inject_Z 12) with 12%Q. lra.
  - apply Math_round_upper. change (inject_Z (100 + 1)) with 101%Q. lra.
Qed.

Lemma X21_scoreResumeFit_range_witness :
  let parsed := {| skills := [mkSkill "Python" (9 # 10) "technical"]; education := [];
                   experience := []; totalYearsExperience := 3; summary := "";
                   embeddings := []; extractionScore := 5 # 10 |} in
  let fit := scoreResumeFit parsed ["python"; "Go"] (Some "BSc") (Some 5%Q) in
  (12 <= matchScore fit <= 100)%Z /\
  matchedSkills (details fit) <= totalRequired (details fit) /\
  matchScore (scoreResumeFit parsed [] None None) = 75%Z.
Proof.
  apply (X21_scoreResumeFit_range
           {| skills := [mkSkill "Python" (9 # 10) "technical"]; education := [];
              experience := []; totalYearsExperience := 3; summary := "";
              embeddings := []; extractionScore := 5 # 10 |}
           ["python"; "Go"] (Some "BSc") (Some 5%Q)).
  - unfold Qle. simpl. lia.
  - intros y E. inversion E; subst. unfold Qle. simpl. lia.
Defined.

(** X22. [mapSkillsToCompetencyFramework] returns one mapping per skill,
    in order and under the same label; a skill some framework entry
    matches gets the confidence 0.85, any other is "Unmatched" with 0.6
    times its own confidence. *)
Theorem X22_framework_mapping
    (extractedSkills : list ExtractedSkill) (icfFramework : list FrameworkEntry) :
  let mapped := mapSkillsToCompetencyFramework extractedSkills icfFramework in
  map mapped_skill mapped = map skill extractedSkills /\
  Forall2 (fun s m =>
             ((exists comp, In comp icfFramework /\
                            entry_matches (toLowerCase (skill s)) comp = true) /\
              mapped_confidence m = (85 # 100)%Q)
             \/
             ((forall comp, In comp icfFramework ->
                            entry_matches (toLowerCase (skill s)) comp = false) /\
              frameworkMatch m = "Unmatched" /\
              mapped_confidence m = (confidence s * (6 # 10))%Q))
          extractedSkills mapped.
Proof.
  cbv zeta. unfold mapSkillsToCompetencyFramework. split.
  - rewrite map_map. reflexivity.
  - induction extractedSkills as [|s l IH]; [constructor|].
    cbn [map]. constructor; [|exact IH].
    cbn [mapped_confidence frameworkMatch].
    destruct (find (entry_matches (toLowerCase (skill s))) icfFramework) as [m|] eqn:E.
    + left. apply find_some in E. split; [exists m; exact E|reflexivity].
    + right. split; [|split; reflexivity].
      intros comp Hin. apply (find_none _ _ E comp Hin).
Qed.

(** ** What the scores imply *)

Lemma Math_round_at_least (x : Q) (n : Z) :
  (n <= Math_round x)%Z -> (inject_Z n <= x + (1 # 2))%Q.
Proof.
  unfold Math_round. intro H. rewrite Zle_Qle in H.
  pose proof (Qfloor_le (x + (1 # 2))). lra.
Qed.

(** X23. With every skill confidence in [0,1], a result recommended as
    "Highly Recommended - Schedule Interview" has gaps for fewer than a
    fifth of the required competencies. *)
Theorem X23_highly_recommended_has_few_gaps
    (extractedSkills : list ExtractedSkill) (requiredCompetencies : list string)
    (resumeText : string) :
  Forall unit_confidence extractedSkills ->
  let r := scoreCompetencies extractedSkills requiredCompetencies resumeText in
  recommendations r = "Highly Recommended - Schedule Interview" ->
  5 * List.length (skillGaps r) < List.length requiredCompetencies.
Proof.
  intros Hall. cbv zeta. unfold scoreCompetencies. cbn [recommendations skillGaps].
  set (l := matchCompetencies extractedSkills requiredCompetencies).
  assert (Hlen : List.length l = List.length requiredCompetencies)
    by apply matchCompetencies_length.
  rewrite <- Hlen.
  unfold generateRecommendations.
  destruct ((80 <? calculateOverallFitScore l (List.length l))%Z) eqn:E80; cbn [andb].
  2:{ destruct ((65 <? _)%Z && _); [discriminate|].
      destruct ((50 <? _)%Z); [discriminate|].
      destruct (5 <? _); discriminate. }
  intros _. apply Z.ltb_lt in E80.
  unfold identifySkillGaps. rewrite length_map.
  pose proof (filter_split_length gap l) as Hsplit. fold (matched_count l) in Hsplit.
  assert (Hunit : Forall unit_entry l) by apply matchCompetencies_unit, Hall.
  unfold calculateOverallFitScore in E80.
  destruct (List.length l =? 0) eqn:E0; [lia|]. apply Nat.eqb_neq in E0.
  fold (matched_count l) in E80.
  match type of E80 with
  | (80 < ?x)%Z => assert (H81 : (81 <= x)%Z) by lia
  end.
  apply Math_round_at_least in H81. change (inject_Z 81) with 81%Q in H81.
  pose proof (confidence_sum_bounds l 0%Q Hunit) as [Hs0 Hs1].
  set (S := fold_left _ l 0%Q) in *.
  set (t := inject_Z (Z.of_nat (List.length l))) in *.
  set (m := inject_Z (Z.of_nat (matched_count l))) in *.
  assert (Ht : (0 < t)%Q).
  { subst t. change 0%Q with (inject_Z 0). rewrite <- Zlt_Qlt. lia. }
  assert (Hba : (S / t <= m / t)%Q).
  { unfold Qdiv. apply Qmult_le_compat_r; [lra|].
    apply Qlt_le_weak, Qinv_lt_0_compat, Ht. }
  assert (Hmt : ((805 # 1000) * t <= m)%Q).
  { assert (Hq : (805 # 1000 <= m / t)%Q) by lra.
    apply (Qmult_le_compat_r _ _ t) in Hq; [|lra].
    assert (E : (m / t * t == m)%Q) by (field; lra).
    lra. }
  assert (Hz : (805 * Z.of_nat (List.length l) <= 1000 * Z.of_nat (matched_count l))%Z).
  { rewrite Zle_Qle, !inject_Z_mult. fold t m.
    change (inject_Z 805) with 805%Q. change (inject_Z 1000) with 1000%Q. lra. }
  lia.
Qed.

Lemma X23_highly_recommended_has_few_gaps_witness :
  5 * List.length (skillGaps (scoreCompetencies [mkSkill "Python" 1 "technical"] ["Python"]
                                "agile teamwork innovation leadership")) < 1.
Proof.
  apply (X23_highly_recommended_has_few_gaps [mkSkill "Python" 1 "technical"] ["Python"]
           "agile teamwork innovation leadership").
  - constructor; [|constructor]. unfold unit_confidence, Qle. simpl. lia.
  - vm_compute. reflexivity.
Defined.

Lemma startsWith_app (t s u : string) :
  startsWith t s = true -> startsWith t (String.append s u) = true.
Proof.
  revert s. induction t as [|a t IH]; intros s H; [reflexivity|].
  destruct s as [|b s]; [discriminate|]. simpl in *.
  apply andb_true_iff in H. destruct H as [Hab H]. rewrite Hab. simpl. apply IH, H.
Qed.

Lemma includes_app_l (s u t : string) :
  includes s t = true -> includes (String.append s u) t = true.
Proof.
  induction s as [|c s IH]; intro H.
  - simpl in H. rewrite orb_false_r in H.
    destruct t; [destruct u; reflexivity|discriminate].
  - cbn [includes] in H. apply orb_true_iff in H. cbn [String.append includes].
    apply orb_true_iff. destruct H as [H|H].
    + left. apply (startsWith_app t (String c s) u H).
    + right. apply IH, H.
Qed.

Lemma includes_app_r (u s t : string) :
  includes s t = true -> includes (String.append u s) t = true.
Proof.
  intro H. induction u as [|c u IH]; [exact H|].
  cbn [String.append includes]. rewrite IH. apply orb_true_r.
Qed.

Lemma toLowerCase_app (s u : string) :
  toLowerCase (String.append s u) = String.append (toLowerCase s) (toLowerCase u).
Proof. induction s as [|c s IH]; simpl; [reflexivity|]. rewrite IH. reflexivity. Qed.

Lemma filter_app_length {A : Type} (p : A -> bool) (l1 l2 : list A) :
  List.length (filter p l1) <= List.length (filter p (l1 ++ l2)).
Proof. rewrite filter_app, length_app. lia. Qed.

(** X24. Text added before or after a resume and skills added to the
    list never lower the cultural fit index. *)
Theorem X24_cultural_fit_grows_with_text_and_skills
    (before resumeText after : string) (extractedSkills more : list ExtractedSkill) :
  (assessCulturalFit resumeText extractedSkills
   <= assessCulturalFit (String.append before (String.append resumeText after))
                        (extractedSkills ++ more))%Z.
Proof.
  unfold assessCulturalFit.
  rewrite !toLowerCase_app.
  set (text := toLowerCase resumeText).
  set (text' := String.append (toLowerCase before) (String.append text (toLowerCase after))).
  assert (Hinc : forall t, includes text t = true -> includes text' t = true).
  { intros t H. apply includes_app_r, includes_app_l, H. }
  pose proof (filter_app_length (fun s => String.eqb (category s) "soft")
                extractedSkills more) as Hsoft.
  set (n := List.length (filter _ extractedSkills)) in *.
  set (n' := List.length (filter _ (extractedSkills ++ more))) in *.
  assert (H1 : (includes text "agile" || includes text "scrum" || includes text "sprint") = true ->
               (includes text' "agile" || includes text' "scrum" || includes text' "sprint") = true).
  { rewrite !orb_true_iff. intros [[H|H]|H]; apply Hinc in H; tauto. }
  assert (H2 : (includes text "collaborate" || includes text "teamwork"
                || includes text "cross-functional") = true ->
               (includes text' "collaborate" || includes text' "teamwork"
                || includes text' "cross-functional") = true).
  { rewrite !orb_true_iff. intros [[H|H]|H]; apply Hinc in H; tauto. }
  assert (H3 : (includes text "innovation" || includes text "creative") = true ->
               (includes text' "innovation" || includes text' "creative") = true).
  { rewrite !orb_true_iff. intros [H|H]; apply Hinc in H; tauto. }
  assert (H4 : (includes text "leadership" || includes text "mentor") = true ->
               (includes text' "leadership" || includes text' "mentor") = true).
  { rewrite !orb_true_iff. intros [H|H]; apply Hinc in H; tauto. }
  destruct (includes text "agile" || includes text "scrum" || includes text "sprint");
    [rewrite (H1 eq_refl)|destruct (includes text' "agile" || _ || _)]; clear H1;
  (destruct (includes text "collaborate" || includes text "teamwork"
             || includes text "cross-functional");
    [rewrite (H2 eq_refl)|destruct (includes text' "collaborate" || _ || _)]; clear H2);
  (destruct (includes text "innovation" || includes text "creative");
    [rewrite (H3 eq_refl)|destruct (includes text' "innovation" || _)]; clear H3);
  (destruct (includes text "leadership" || includes text "mentor");
    [rewrite (H4 eq_refl)|destruct (includes text' "leadership" || _)]; clear H4);
  lia.
Qed.
